(** * Goldfish gralloc mapper (IMapper 3.0): lock state machine and YUV layout

    A shallow embedding of [system/hals/mapper3.cpp]: the buffer handle's
    import / lock / lockYCbCr / unlock / free operations, the plane-layout
    switch of [lockYCbCrImpl] and the descriptor support check
    [isSupportedImpl], followed by the properties proved about them.

    Machine integers are kept as [Z] with the wrap-around of their C type
    written out.  The target is LP64: [size_t] and pointers are 64 bits wide.
    The handle structure [cb_handle_30_t] is declared in [cb_handle_30.h],
    outside [mapper3.cpp]; its fields are taken with the types the code
    relies on: 32-bit unsigned words for the geometry, usage and region
    fields, [uint8_t lockedUsage] (it is assigned from a [uint8_t]), a
    signed [bufferFdIndex] (it is tested against [< 0]). *)

From Stdlib Require Import ZArith List Bool Lia.
Import ListNotations.
Local Open Scope Z_scope.

(* ===================================================================== *)
(** ** Fixed-width arithmetic *)
(* ===================================================================== *)

Module Mach.

Definition wrap (bits v : Z) : Z := v mod 2 ^ bits.

Definition u8 (v : Z) : Z := wrap 8 v.
Definition u32 (v : Z) : Z := wrap 32 v.
Definition u64 (v : Z) : Z := wrap 64 v.

(** [size_t] on the LP64 target. *)
Definition size_t (v : Z) : Z := wrap 64 v.
Definition size_max : Z := 2 ^ 64 - 1.

Definition size_add (a b : Z) : Z := size_t (a + b).
Definition size_sub (a b : Z) : Z := size_t (a - b).
Definition size_mul (a b : Z) : Z := size_t (a * b).
Definition size_div (a b : Z) : Z := a / b.
(** [~x] on a [size_t]. *)
Definition size_not (a : Z) : Z := Z.lxor a size_max.

(** [uint32_t * int] (the usual arithmetic conversions keep it unsigned,
    32 bits wide). *)
Definition u32_mul (a b : Z) : Z := u32 (a * b).

Definition in_u8 (v : Z) : Prop := 0 <= v < 2 ^ 8.
Definition in_u32 (v : Z) : Prop := 0 <= v < 2 ^ 32.
Definition in_u64 (v : Z) : Prop := 0 <= v < 2 ^ 64.

(** Conversion of an unsigned value to [int32_t]. *)
Definition i32 (v : Z) : Z := (v + 2 ^ 31) mod 2 ^ 32 - 2 ^ 31.

End Mach.
Import Mach.

(* ===================================================================== *)
(** ** Constants of the graphics HAL interfaces *)
(* ===================================================================== *)

(** [android.hardware.graphics.common@1.2::PixelFormat]. *)
Module PixelFormat.
Definition RGBA_8888 : Z := 1.
Definition RGBX_8888 : Z := 2.
Definition RGB_888 : Z := 3.
Definition RGB_565 : Z := 4.
Definition BGRA_8888 : Z := 5.
Definition YCRCB_420_SP : Z := 17.
Definition RGBA_FP16 : Z := 22.
Definition RAW16 : Z := 32.
Definition BLOB : Z := 33.
Definition IMPLEMENTATION_DEFINED : Z := 34.
Definition YCBCR_420_888 : Z := 35.
Definition RGBA_1010102 : Z := 43.
Definition YCBCR_P010 : Z := 54.
Definition Y16 : Z := 540422489.
Definition YV12 : Z := 842094169.
End PixelFormat.

Definition kOMX_COLOR_FormatYUV420Planar : Z := 19.

(** [android.hardware.graphics.common@1.0::BufferUsage]. *)
Module BufferUsage.
Definition CPU_READ_MASK : Z := 15.
Definition CPU_WRITE_MASK : Z := 240.
Definition GPU_TEXTURE : Z := Z.shiftl 1 8.
Definition GPU_RENDER_TARGET : Z := Z.shiftl 1 9.
Definition COMPOSER_OVERLAY : Z := Z.shiftl 1 11.
Definition COMPOSER_CLIENT_TARGET : Z := Z.shiftl 1 12.
Definition VIDEO_DECODER : Z := Z.shiftl 1 22.
Definition GPU_DATA_BUFFER : Z := Z.shiftl 1 24.
End BufferUsage.

(** [android.hardware.graphics.mapper@3.0::Error]. *)
Inductive Error3 : Type :=
| NONE
| BAD_DESCRIPTOR
| BAD_BUFFER
| BAD_VALUE
| NO_RESOURCES
| UNSUPPORTED.

Definition ETIME : Z := 62.
Definition EINVAL : Z := 22.

(* ===================================================================== *)
(** ** The YUV plane layout *)
(* ===================================================================== *)

(** [size_t align(const size_t v, const size_t a)
      { return (v + a - 1) & ~(a - 1); }] *)
Definition align (v a : Z) : Z :=
  Z.land (size_sub (size_add v a) 1) (size_not (size_sub a 1)).

(** The locals of [lockYCbCrImpl] that its format switch assigns. *)
Record PlaneLayout : Type := mkPlaneLayout {
  yStride : Z;
  cStride : Z;
  cStep : Z;
  uOffset : Z;
  vOffset : Z
}.

(** The [switch (static_cast<PixelFormat>(cb->format))] of [lockYCbCrImpl];
    [None] is its [default:] branch.  [w] and [h] are [cb->width] and
    [cb->height]; they are widened to [size_t] where they meet one, and the
    product [cb->width * 2] is formed in 32 bits before it is stored. *)
Definition ycbcrPlaneLayout (format w h : Z) : option PlaneLayout :=
  if format =? PixelFormat.YCRCB_420_SP then
    let yStride := size_t w in
    let cStride := yStride in
    let vOffset := size_mul yStride h in
    let uOffset := size_add vOffset 1 in
    Some (mkPlaneLayout yStride cStride 2 uOffset vOffset)
  else if format =? PixelFormat.YV12 then
    let yStride := align w 16 in
    let cStride := align (size_div yStride 2) 16 in
    let vOffset := size_mul yStride h in
    let uOffset := size_add vOffset (size_div (size_mul cStride h) 2) in
    Some (mkPlaneLayout yStride cStride 1 uOffset vOffset)
  else if format =? PixelFormat.YCBCR_420_888 then
    let yStride := size_t w in
    let cStride := size_div yStride 2 in
    let uOffset := size_mul h yStride in
    let vOffset := size_add uOffset (size_div (size_mul cStride h) 2) in
    Some (mkPlaneLayout yStride cStride 1 uOffset vOffset)
  else if format =? PixelFormat.YCBCR_P010 then
    let yStride := size_t (u32_mul w 2) in
    let cStride := yStride in
    let uOffset := size_mul h yStride in
    let vOffset := size_add uOffset 2 in
    Some (mkPlaneLayout yStride cStride 4 uOffset vOffset)
  else None.

(** *** The layout table as the specification words it

    Exact integers, no machine width: [align(v,a) = (v + a - 1) & ~(a - 1)]
    and one row per format. *)
Definition spec_align (v a : Z) : Z := Z.land (v + a - 1) (Z.lnot (a - 1)).

Definition spec_layout (format w h : Z) : option PlaneLayout :=
  if format =? PixelFormat.YCRCB_420_SP then
    Some (mkPlaneLayout w w 2 (w * h + 1) (w * h))
  else if format =? PixelFormat.YV12 then
    let ys := spec_align w 16 in
    let cs := spec_align (ys / 2) 16 in
    Some (mkPlaneLayout ys cs 1 (ys * h + cs * h / 2) (ys * h))
  else if format =? PixelFormat.YCBCR_420_888 then
    let cs := w / 2 in
    Some (mkPlaneLayout w cs 1 (h * w) (h * w + cs * h / 2))
  else if format =? PixelFormat.YCBCR_P010 then
    Some (mkPlaneLayout (2 * w) (2 * w) 4 (h * (2 * w)) (h * (2 * w) + 2))
  else None.

(* ===================================================================== *)
(** ** Handles *)
(* ===================================================================== *)

(** [IMapper::Rect]: four [int32_t]. *)
Module Rect.
Record t : Type := mk { left : Z; top : Z; width : Z; height : Z }.
End Rect.

(** [native_handle_t] as far as [waitHidlFence] reads it. *)
Record native_handle_t : Type := mkNativeHandle {
  numFds : Z;
  numInts : Z;
  data : list Z
}.

(** A [hidl_handle]; [getNativeHandle()] is [None] for the empty handle. *)
Definition hidl_handle : Type := option native_handle_t.

(** The fields of [cb_handle_30_t] that the mapper reads or writes.
    [bufferPtr] is what [getBufferPtr()] returns and [setBufferPtr()]
    stores, [mmapedOffset] what [getMmapedOffset()] returns; a null pointer
    is [0]. *)
Module Cb.
Record t : Type := mk {
  fds : list Z;
  hostHandle : Z;
  format : Z;
  bufferSize : Z;
  mmapedOffset : Z;
  usage : Z;
  width : Z;
  height : Z;
  glFormat : Z;
  glType : Z;
  bytesPerPixel : Z;
  stride : Z;
  mmapedSize : Z;
  bufferPtr : Z;
  lockedUsage : Z;
  bufferFdIndex : Z;
  lockedLeft : Z;
  lockedTop : Z;
  lockedWidth : Z;
  lockedHeight : Z
}.

Definition setBufferPtr (ptr : Z) (cb : t) : t :=
  mk (fds cb) (hostHandle cb) (format cb) (bufferSize cb) (mmapedOffset cb)
     (usage cb) (width cb) (height cb) (glFormat cb) (glType cb)
     (bytesPerPixel cb) (stride cb) (mmapedSize cb) ptr (lockedUsage cb)
     (bufferFdIndex cb) (lockedLeft cb) (lockedTop cb) (lockedWidth cb)
     (lockedHeight cb).

(** The five lock-state stores, in one step. *)
Definition setLockState (l t' w h u : Z) (cb : t) : t :=
  mk (fds cb) (hostHandle cb) (format cb) (bufferSize cb) (mmapedOffset cb)
     (usage cb) (width cb) (height cb) (glFormat cb) (glType cb)
     (bytesPerPixel cb) (stride cb) (mmapedSize cb) (bufferPtr cb) u
     (bufferFdIndex cb) l t' w h.

(** The locked region as a rectangle. *)
Definition lockedRegion (cb : t) : Rect.t :=
  Rect.mk (lockedLeft cb) (lockedTop cb) (lockedWidth cb) (lockedHeight cb).

(** Every field holds a value of its C type. *)
Record wf (cb : t) : Prop := mkWf {
  wf_hostHandle : in_u32 (hostHandle cb);
  wf_bufferSize : in_u32 (bufferSize cb);
  wf_usage : in_u32 (usage cb);
  wf_width : in_u32 (width cb);
  wf_height : in_u32 (height cb);
  wf_mmapedSize : in_u32 (mmapedSize cb);
  wf_bufferPtr : in_u64 (bufferPtr cb);
  wf_lockedUsage : in_u8 (lockedUsage cb)
}.
End Cb.

(** What a [void*] / [native_handle_t*] argument points to: a handle that is
    not one of ours, or a [cb_handle_30_t].  The pointer itself is an
    [option]; [None] is [nullptr] (and, after [freeBuffer], a handle that no
    longer exists). *)
Inductive native_object : Type :=
| Foreign (nh : native_handle_t)
| Buffer (cb : Cb.t).

Definition raw_handle : Type := option native_object.

(** Modelled from the spec: [cb_handle_30_t::from], declared in
    [cb_handle_30.h], which is not among the sources.  The specification
    speaks of a handle that is "null or unrecognized" and of a clone that
    "does not decode to a recognized buffer handle layout": [from] yields
    the buffer handle exactly when the pointer is non-null and the object
    has the recognized layout. *)
Definition from (raw : raw_handle) : option Cb.t :=
  match raw with
  | Some (Buffer cb) => Some cb
  | _ => None
  end.

(* ===================================================================== *)
(** ** The world outside the mapper *)
(* ===================================================================== *)

(** Calls that leave the mapper, in program order. *)
Inductive event : Type :=
| EvSyncWait (fd timeout : Z)
| EvCacheFlush (hostHandle : Z) (usageSwRead : bool)
| EvReadColorBufferYUV (hostHandle w h size : Z)
| EvReadColorBuffer (hostHandle w h glFormat glType : Z)
| EvRgb888ToYv12 (w h : Z) (region : Rect.t)
| EvRgb888ToYuv420p (w h : Z) (region : Rect.t)
| EvBindDmaDirectly (ptr phys : Z)
| EvReadColorBufferDMA (hostHandle w h glFormat glType size : Z)
| EvUpdateColorBufferDMA (hostHandle w h glFormat glType size : Z)
| EvMemoryMap (addr len fd off : Z)
| EvMemoryUnmap (ptr len : Z)
| EvNativeHandleClose
| EvNativeHandleDelete.

Definition trace : Type := list event.

(** The collaborators the mapper calls but does not define: libsync, the
    render-control encoder and its feature flags, the format helpers of
    [FormatConversions.h], [native_handle_clone] and the address-space
    mapping.  Each is a function of its arguments. *)
Record Host : Type := mkHost {
  (** [sync_wait(fd, timeout)]: its return value and the [errno] it leaves. *)
  sync_wait : Z -> Z -> Z * Z;
  (** [rcColorBufferCacheFlush(rcEnc, hostHandle, 0, usageSwRead)]. *)
  rcColorBufferCacheFlush : Z -> bool -> Z;
  hasYUVCache : bool;
  hasReadColorBufferDma : bool;
  gralloc_is_yuv_format : Z -> bool;
  (** The size that [get_yv12_offsets(w, h, nullptr, nullptr, &size)] and
      [get_yuv420p_offsets] store. *)
  get_yv12_offsets : Z -> Z -> Z;
  get_yuv420p_offsets : Z -> Z -> Z;
  glUtilsPixelBitSize : Z -> Z -> Z;
  (** Whether [native_handle_clone] returns a copy (or [nullptr]). *)
  native_handle_clone_ok : native_object -> bool;
  (** [GoldfishAddressSpaceBlock::memoryMap(addr, len, fd, off, &ptr)]: its
      result and the pointer it stores on success. *)
  memoryMap : Z -> Z -> Z -> Z -> Z * Z;
  m_physAddrToOffset : Z;
  (** The word found at [data[0]] of a fence handle that holds no data. *)
  stray_word : Z
}.

(* ===================================================================== *)
(** ** A monad for the bodies of the [...Impl] functions

    A computation runs on the handle it was given, appends to the trace of
    outside calls, and ends in one of three ways: it falls through with a
    value, it leaves the function early with an error code
    ([RETURN_ERROR(e)] or [return e]), or it aborts the process ([CRASH],
    [LOG_ALWAYS_FATAL_IF]). *)
(* ===================================================================== *)

Inductive result (S A : Type) : Type :=
| Done (a : A) (s : S) (tr : trace)
| Left (e : Error3) (s : S) (tr : trace)
| Aborted (tr : trace).
Arguments Done {S A} a s tr.
Arguments Left {S A} e s tr.
Arguments Aborted {S A} tr.

Definition M (A : Type) : Type := Cb.t -> trace -> result Cb.t A.

Definition pure {A} (a : A) : M A := fun cb tr => Done a cb tr.

Definition bind {A B} (c : M A) (k : A -> M B) : M B :=
  fun cb tr =>
    match c cb tr with
    | Done a cb' tr' => k a cb' tr'
    | Left e cb' tr' => Left e cb' tr'
    | Aborted tr' => Aborted tr'
    end.

Definition RETURN_ERROR {A} (e : Error3) : M A := fun cb tr => Left e cb tr.
Definition CRASH {A} : M A := fun _ tr => Aborted tr.
Definition this : M Cb.t := fun cb tr => Done cb cb tr.
Definition store (f : Cb.t -> Cb.t) : M unit := fun cb tr => Done tt (f cb) tr.
Definition call (ev : event) : M unit := fun cb tr => Done tt cb (tr ++ [ev]).

Declare Scope mapper_scope.
Delimit Scope mapper_scope with mapper.
Notation "x <- c ;; k" := (bind c (fun x => k))
  (at level 61, c at next level, right associativity) : mapper_scope.
Notation "c ;; k" := (bind c (fun _ => k))
  (at level 61, right associativity) : mapper_scope.
Local Open Scope mapper_scope.

(** Run a body on the object behind a raw pointer; the handle that comes
    back takes the place of the one that went in. *)
Definition on_handle {A} (raw : raw_handle) (body : M A)
  : result raw_handle A :=
  match from raw with
  | None => Left BAD_BUFFER raw []
  | Some cb =>
      match body cb [] with
      | Done a cb' tr => Done a (Some (Buffer cb')) tr
      | Left e cb' tr => Left e (Some (Buffer cb')) tr
      | Aborted tr => Aborted tr
      end
  end.

(* ===================================================================== *)
(** ** Fences *)
(* ===================================================================== *)

(** [waitFenceFd]: [0], or the [errno] of the wait that failed. *)
Definition waitFenceFd (host : Host) (fd : Z) : M Z :=
  let warningTimeout := 5000 in
  call (EvSyncWait fd warningTimeout) ;;
  let (r, errno) := sync_wait host fd warningTimeout in
  if r <? 0 then
    if errno =? ETIME then
      call (EvSyncWait fd (-1)) ;;
      let (r', errno') := sync_wait host fd (-1) in
      if r' <? 0 then pure errno' else pure 0
    else pure errno
  else pure 0.

Definition waitHidlFence (host : Host) (hidlHandle : hidl_handle) : M Z :=
  match hidlHandle with
  | None => pure 0
  | Some nativeHandle =>
      if numFds nativeHandle >? 1 then pure (- EINVAL)
      else if negb (numInts nativeHandle =? 0) then pure (- EINVAL)
      else waitFenceFd host (nth 0 (data nativeHandle) (stray_word host))
  end.

(* ===================================================================== *)
(** ** Lock, lockYCbCr, unlock *)
(* ===================================================================== *)

(** [uncheckedUsage & cb->usage & (CPU_READ_MASK | CPU_WRITE_MASK)], stored
    in a [uint8_t]. *)
Definition checkedUsageOf (uncheckedUsage usage : Z) : Z :=
  u8 (Z.land (Z.land uncheckedUsage usage)
             (Z.lor BufferUsage.CPU_READ_MASK BufferUsage.CPU_WRITE_MASK)).

(** An [int32_t] of the rectangle stored into a 32-bit field of the
    handle. *)
Definition region_words (r : Rect.t) : Rect.t :=
  Rect.mk (u32 (Rect.left r)) (u32 (Rect.top r))
          (u32 (Rect.width r)) (u32 (Rect.height r)).

(** The stores of [setLocked], as a function on the handle. *)
Definition lockedAs (checkedUsage : Z) (accessRegion : Rect.t) (cb : Cb.t)
  : Cb.t :=
  if negb (Z.land checkedUsage BufferUsage.CPU_WRITE_MASK =? 0) then
    Cb.setLockState (u32 (Rect.left accessRegion))
                    (u32 (Rect.top accessRegion))
                    (u32 (Rect.width accessRegion))
                    (u32 (Rect.height accessRegion))
                    checkedUsage cb
  else
    Cb.setLockState 0 0 (Cb.width cb) (Cb.height cb) checkedUsage cb.

Definition setLocked (checkedUsage : Z) (accessRegion : Rect.t) : M unit :=
  store (lockedAs checkedUsage accessRegion).

Definition getMmapedPhysAddr (host : Host) (offset : Z) : Z :=
  u64 (m_physAddrToOffset host + offset).

Definition lockHostImpl (host : Host) (checkedUsage : Z)
           (accessRegion : Rect.t) (bufferBits : Z) : M unit :=
  cb <- this ;;
  let usageSwRead :=
    negb (Z.land checkedUsage BufferUsage.CPU_READ_MASK =? 0) in
  call (EvCacheFlush (Cb.hostHandle cb) usageSwRead) ;;
  let res := rcColorBufferCacheFlush host (Cb.hostHandle cb) usageSwRead in
  if res <? 0 then RETURN_ERROR NO_RESOURCES
  else if usageSwRead then
    if gralloc_is_yuv_format host (Cb.format cb) then
      if hasYUVCache host then
        bufferSize <-
          (if Cb.format cb =? PixelFormat.YV12 then
             pure (get_yv12_offsets host (Cb.width cb) (Cb.height cb))
           else if Cb.format cb =? PixelFormat.YCBCR_420_888 then
             pure (get_yuv420p_offsets host (Cb.width cb) (Cb.height cb))
           else CRASH) ;;
        call (EvReadColorBufferYUV (Cb.hostHandle cb) (Cb.width cb)
                                   (Cb.height cb) bufferSize)
      else
        call (EvReadColorBuffer (Cb.hostHandle cb) (Cb.width cb)
                (Cb.height cb) (Cb.glFormat cb) (Cb.glType cb)) ;;
        if Cb.format cb =? PixelFormat.YV12 then
          call (EvRgb888ToYv12 (Cb.width cb) (Cb.height cb) accessRegion)
        else if Cb.format cb =? PixelFormat.YCBCR_420_888 then
          call (EvRgb888ToYuv420p (Cb.width cb) (Cb.height cb) accessRegion)
        else CRASH
    else
      if hasReadColorBufferDma host then
        call (EvBindDmaDirectly bufferBits
                (getMmapedPhysAddr host (Cb.mmapedOffset cb))) ;;
        call (EvReadColorBufferDMA (Cb.hostHandle cb) (Cb.width cb)
                (Cb.height cb) (Cb.glFormat cb) (Cb.glType cb)
                (u32 (Cb.width cb * Cb.height cb * Cb.bytesPerPixel cb)))
      else
        call (EvReadColorBuffer (Cb.hostHandle cb) (Cb.width cb)
                (Cb.height cb) (Cb.glFormat cb) (Cb.glType cb))
  else pure tt.

(** What [lockImpl] stores through [pptr], [pBytesPerPixel] and
    [pBytesPerStride]. *)
Record LockOut : Type := mkLockOut {
  ptr : Z;
  outBytesPerPixel : Z;
  outBytesPerStride : Z
}.

(** [lockImpl] past the two null checks on the handle. *)
Definition lockBody (host : Host) (uncheckedUsage : Z)
           (accessRegion : Rect.t) (acquireFence : hidl_handle) : M LockOut :=
  cb <- this ;;
  if negb (Cb.lockedUsage cb =? 0) then RETURN_ERROR BAD_VALUE else
  let checkedUsage := checkedUsageOf uncheckedUsage (Cb.usage cb) in
  if checkedUsage =? 0 then RETURN_ERROR BAD_VALUE else
  if Cb.bufferSize cb =? 0 then RETURN_ERROR BAD_BUFFER else
  let bufferBits := Cb.bufferPtr cb in
  if bufferBits =? 0 then RETURN_ERROR BAD_BUFFER else
  fence <- waitHidlFence host acquireFence ;;
  if negb (fence =? 0) then RETURN_ERROR BAD_VALUE else
  (if negb (Cb.hostHandle cb =? 0)
   then lockHostImpl host checkedUsage accessRegion bufferBits
   else pure tt) ;;
  setLocked checkedUsage accessRegion ;;
  pure (mkLockOut bufferBits
                  (i32 (Cb.bytesPerPixel cb))
                  (i32 (u32 (Cb.bytesPerPixel cb * Cb.stride cb)))).

(** [lockImpl]: [BAD_BUFFER] for a null or unrecognized handle, the body
    otherwise. *)
Definition lockImpl (host : Host) (raw : raw_handle) (uncheckedUsage : Z)
           (accessRegion : Rect.t) (acquireFence : hidl_handle)
  : result raw_handle LockOut :=
  on_handle raw (lockBody host uncheckedUsage accessRegion acquireFence).

(** [YCbCrLayout]: three pointers and three [uint32_t]. *)
Record YCbCrLayout3 : Type := mkYCbCrLayout3 {
  y : Z;
  cb_ptr : Z;
  cr_ptr : Z;
  outYStride : Z;
  outCStride : Z;
  chromaStep : Z
}.

Definition lockYCbCrBody (host : Host) (uncheckedUsage : Z)
           (accessRegion : Rect.t) (acquireFence : hidl_handle)
  : M YCbCrLayout3 :=
  cb <- this ;;
  if negb (Cb.lockedUsage cb =? 0) then RETURN_ERROR BAD_VALUE else
  let checkedUsage := checkedUsageOf uncheckedUsage (Cb.usage cb) in
  if checkedUsage =? 0 then RETURN_ERROR BAD_VALUE else
  if Cb.bufferSize cb =? 0 then RETURN_ERROR BAD_BUFFER else
  let bufferBits := Cb.bufferPtr cb in
  if bufferBits =? 0 then RETURN_ERROR BAD_BUFFER else
  fence <- waitHidlFence host acquireFence ;;
  if negb (fence =? 0) then RETURN_ERROR BAD_VALUE else
  match ycbcrPlaneLayout (Cb.format cb) (Cb.width cb) (Cb.height cb) with
  | None => RETURN_ERROR BAD_BUFFER
  | Some l =>
      (if negb (Cb.hostHandle cb =? 0)
       then lockHostImpl host checkedUsage accessRegion bufferBits
       else pure tt) ;;
      setLocked checkedUsage accessRegion ;;
      pure (mkYCbCrLayout3 bufferBits
                           (u64 (bufferBits + uOffset l))
                           (u64 (bufferBits + vOffset l))
                           (u32 (yStride l)) (u32 (cStride l))
                           (u32 (cStep l)))
  end.

Definition lockYCbCrImpl (host : Host) (raw : raw_handle)
           (uncheckedUsage : Z) (accessRegion : Rect.t)
           (acquireFence : hidl_handle) : result raw_handle YCbCrLayout3 :=
  on_handle raw (lockYCbCrBody host uncheckedUsage accessRegion acquireFence).

Definition unlockHostImpl (host : Host) (bufferBits : Z) : M unit :=
  cb <- this ;;
  if negb (Z.land (Cb.lockedUsage cb) BufferUsage.CPU_WRITE_MASK =? 0) then
    let bpp :=
      Z.shiftr (glUtilsPixelBitSize host (Cb.glFormat cb) (Cb.glType cb)) 3 in
    let rgbSize := u32 (Cb.width cb * Cb.height cb * bpp) in
    sizeToSend <-
      (if gralloc_is_yuv_format host (Cb.format cb) then
         if Cb.format cb =? PixelFormat.YV12 then
           pure (get_yv12_offsets host (Cb.width cb) (Cb.height cb))
         else if Cb.format cb =? PixelFormat.YCBCR_420_888 then
           pure (get_yuv420p_offsets host (Cb.width cb) (Cb.height cb))
         else CRASH
       else pure rgbSize) ;;
    call (EvBindDmaDirectly bufferBits
            (getMmapedPhysAddr host (Cb.mmapedOffset cb))) ;;
    call (EvUpdateColorBufferDMA (Cb.hostHandle cb) (Cb.width cb)
            (Cb.height cb) (Cb.glFormat cb) (Cb.glType cb) sizeToSend)
  else pure tt.

Definition unlockBody (host : Host) : M unit :=
  cb <- this ;;
  if Cb.lockedUsage cb =? 0 then RETURN_ERROR BAD_VALUE else
  if Cb.bufferSize cb =? 0 then RETURN_ERROR BAD_BUFFER else
  let bufferBits := Cb.bufferPtr cb in
  if bufferBits =? 0 then RETURN_ERROR BAD_BUFFER else
  (if negb (Cb.hostHandle cb =? 0)
   then unlockHostImpl host bufferBits
   else pure tt) ;;
  store (Cb.setLockState 0 0 0 0 0).

Definition unlockImpl (host : Host) (raw : raw_handle)
  : result raw_handle unit :=
  on_handle raw (unlockBody host).

(* ===================================================================== *)
(** ** Import and free *)
(* ===================================================================== *)

(** [importBufferImpl(nh, phandle)].  The state of the result is what
    [*phandle] holds when the function is left: the caller passes it in as
    [nullptr], and only the last statement stores the clone there. *)
Definition importBufferImpl (host : Host) (nh : raw_handle)
  : result raw_handle unit :=
  match nh with
  | None => Left BAD_BUFFER None []
  | Some obj =>
      if negb (native_handle_clone_ok host obj) then Left BAD_BUFFER None []
      else
        let imported := Some obj in
        match from imported with
        | None =>
            Left BAD_BUFFER None [EvNativeHandleClose; EvNativeHandleDelete]
        | Some cb =>
            if Cb.mmapedSize cb >? 0 then
              if Cb.bufferFdIndex cb <? 0 then Aborted []
              else
                let fd := nth (Z.to_nat (Cb.bufferFdIndex cb)) (Cb.fds cb) 0 in
                let ev := EvMemoryMap (Cb.bufferPtr cb) (Cb.mmapedSize cb)
                                      fd (Cb.mmapedOffset cb) in
                let (res, ptr) :=
                  memoryMap host (Cb.bufferPtr cb) (Cb.mmapedSize cb)
                            fd (Cb.mmapedOffset cb) in
                if negb (res =? 0) then
                  Left NO_RESOURCES None
                       [ev; EvNativeHandleClose; EvNativeHandleDelete]
                else
                  Done tt (Some (Buffer (Cb.setBufferPtr ptr cb))) [ev]
            else Done tt (Some (Buffer cb)) []
        end
  end.

(** [freeBuffer(raw)]; afterwards the handle is gone. *)
Definition freeBuffer (raw : raw_handle) : result raw_handle unit :=
  match from raw with
  | None => Left BAD_BUFFER raw []
  | Some cb =>
      Done tt None
           ((if Cb.mmapedSize cb >? 0
             then [EvMemoryUnmap (Cb.bufferPtr cb) (Cb.mmapedSize cb)]
             else [])
            ++ [EvNativeHandleClose; EvNativeHandleDelete])
  end.

(* ===================================================================== *)
(** ** The descriptor support check *)
(* ===================================================================== *)

(** [IMapper::BufferDescriptorInfo]: three [uint32_t], the format, and a
    64-bit usage bit field. *)
Module Desc.
Record t : Type := mk {
  width : Z;
  height : Z;
  layerCount : Z;
  format : Z;
  usage : Z
}.
End Desc.

Definition needGpuBuffer (usage : Z) : bool :=
  negb (Z.land usage
          (Z.lor (Z.lor (Z.lor (Z.lor BufferUsage.GPU_TEXTURE
                                      BufferUsage.GPU_RENDER_TARGET)
                               BufferUsage.COMPOSER_OVERLAY)
                        BufferUsage.COMPOSER_CLIENT_TARGET)
                 BufferUsage.GPU_DATA_BUFFER) =? 0).

Definition one64 : Z := 1.

(** [((one64 << (to - from + 1)) - 1) << from], in [uint64_t]. *)
Definition ones (from to : Z) : Z :=
  u64 (Z.shiftl (u64 (u64 (Z.shiftl one64 (to - from + 1)) - 1)) from).

Definition kReservedUsage : Z :=
  Z.lor (Z.lor (Z.lor (Z.lor (Z.lor (u64 (Z.shiftl one64 10))
                                    (u64 (Z.shiftl one64 13)))
                             (u64 (Z.shiftl one64 19)))
                      (u64 (Z.shiftl one64 21)))
               (ones 25 27))
        (ones 32 47).

Definition isSupportedImpl (descriptor : Desc.t) : bool :=
  if Desc.width descriptor =? 0 then false
  else if Desc.height descriptor =? 0 then false
  else if negb (Desc.layerCount descriptor =? 1) then false
  else
    let usage64 := Desc.usage descriptor in
    if negb (Z.land usage64 kReservedUsage =? 0) then false
    else
      let usage := u32 usage64 in
      let format := Desc.format descriptor in
      if (format =? PixelFormat.RGBA_8888)
         || (format =? PixelFormat.RGBX_8888)
         || (format =? PixelFormat.BGRA_8888)
         || (format =? PixelFormat.RGB_565)
         || (format =? PixelFormat.RGBA_FP16)
         || (format =? PixelFormat.RGBA_1010102)
         || (format =? PixelFormat.YV12)
         || (format =? PixelFormat.YCBCR_420_888)
         || (format =? PixelFormat.YCBCR_P010)
      then true
      else if format =? PixelFormat.IMPLEMENTATION_DEFINED then false
      else if (format =? PixelFormat.RGB_888)
              || (format =? PixelFormat.YCRCB_420_SP)
              || (format =? PixelFormat.RAW16)
              || (format =? PixelFormat.Y16)
              || (format =? PixelFormat.BLOB)
      then negb (needGpuBuffer usage)
      else if format =? kOMX_COLOR_FormatYUV420Planar then
        negb (Z.land usage BufferUsage.VIDEO_DECODER =? 0)
      else false.

(* ===================================================================== *)
(** ** Predicates used by the statements *)
(* ===================================================================== *)

(** The values of the table fit the types the code computes them in: the
    Y stride of the 10-bit format fits 32 bits, the plane offsets fit
    [size_t]. *)
Definition layout_representable (format w h : Z) : Prop :=
  (format = PixelFormat.YCBCR_P010 -> 2 * w < 2 ^ 32) /\
  match spec_layout format w h with
  | Some l => uOffset l < 2 ^ 64 /\ vOffset l < 2 ^ 64
  | None => True
  end.

(** The invariant of the lock state: a locked handle has its memory. *)
Definition lock_invariant (cb : Cb.t) : Prop :=
  Cb.lockedUsage cb <> 0 -> Cb.bufferPtr cb <> 0 /\ Cb.bufferSize cb > 0.

Definition raw_invariant (raw : raw_handle) : Prop :=
  match from raw with
  | Some cb => lock_invariant cb
  | None => True
  end.

Definition raw_wf (raw : raw_handle) : Prop :=
  match from raw with
  | Some cb => Cb.wf cb
  | None => True
  end.

(** The invariant holds of the handle a call leaves behind (a call that
    aborts the process leaves none). *)
Definition holds_after {A} (r : result raw_handle A) : Prop :=
  match r with
  | Done _ s _ | Left _ s _ => raw_invariant s
  | Aborted _ => True
  end.

(** The error code a call returns: [NONE] when it runs to its end. *)
Definition returned {S A} (r : result S A) : option Error3 :=
  match r with
  | Done _ _ _ => Some NONE
  | Left e _ _ => Some e
  | Aborted _ => None
  end.

(** The handle a call leaves behind. *)
Definition handle_after {A} (r : result raw_handle A) : raw_handle :=
  match r with
  | Done _ s _ | Left _ s _ => s
  | Aborted _ => None
  end.

(** The calls to the outside that a call made. *)
Definition calls {S A} (r : result S A) : trace :=
  match r with
  | Done _ _ tr | Left _ _ tr | Aborted tr => tr
  end.

(** A mapping that succeeds yields an address: [memoryMap] reports a failed
    [mmap] through its result, never through a null pointer. *)
Definition map_yields_pointer (host : Host) : Prop :=
  forall addr len fd off,
    fst (memoryMap host addr len fd off) = 0 ->
    snd (memoryMap host addr len fd off) <> 0.

(** A computation that leaves the handle as it found it. *)
Definition frames {A} (c : M A) : Prop :=
  forall cb tr,
    match c cb tr with
    | Done _ cb' _ | Left _ cb' _ => cb' = cb
    | Aborted _ => True
    end.

(** The value a computation falls through with. *)
Definition value_of {S A} (r : result S A) : option A :=
  match r with
  | Done a _ _ => Some a
  | _ => None
  end.

Definition is_sync_wait (ev : event) : bool :=
  match ev with
  | EvSyncWait _ _ => true
  | _ => false
  end.

Definition is_host_push (ev : event) : bool :=
  match ev with
  | EvUpdateColorBufferDMA _ _ _ _ _ _ => true
  | _ => false
  end.

(** A fence handle that [waitHidlFence] refuses. *)
Definition malformed_fence (nh : native_handle_t) : Prop :=
  numFds nh > 1 \/ numInts nh <> 0.

(** A rectangle whose fields are the same number as [int32_t] and as a
    32-bit word. *)
Definition rect_nonneg (r : Rect.t) : Prop :=
  0 <= Rect.left r < 2 ^ 31 /\ 0 <= Rect.top r < 2 ^ 31 /\
  0 <= Rect.width r < 2 ^ 31 /\ 0 <= Rect.height r < 2 ^ 31.

(** *** The support check in the words of the specification *)

(** Bits 10, 13, 19, 21, 25-27 and 32-47. *)
Definition reserved_bit (n : Z) : bool :=
  (n =? 10) || (n =? 13) || (n =? 19) || (n =? 21)
  || ((25 <=? n) && (n <=? 27)) || ((32 <=? n) && (n <=? 47)).

Definition no_reserved_bit (usage : Z) : Prop :=
  forall n, 0 <= n -> reserved_bit n = true -> Z.testbit usage n = false.

(** The formats the check accepts whatever the usage. *)
Definition format_always_supported (format : Z) : bool :=
  (format =? PixelFormat.RGBA_8888) || (format =? PixelFormat.RGBX_8888)
  || (format =? PixelFormat.BGRA_8888) || (format =? PixelFormat.RGB_565)
  || (format =? PixelFormat.RGBA_FP16) || (format =? PixelFormat.RGBA_1010102)
  || (format =? PixelFormat.YV12) || (format =? PixelFormat.YCBCR_420_888)
  || (format =? PixelFormat.YCBCR_P010).

(** The formats it accepts for buffers the GPU does not touch. *)
Definition format_cpu_only (format : Z) : bool :=
  (format =? PixelFormat.RGB_888) || (format =? PixelFormat.YCRCB_420_SP)
  || (format =? PixelFormat.RAW16) || (format =? PixelFormat.Y16)
  || (format =? PixelFormat.BLOB).

(** Bits 8, 9, 11, 12 and 24: texture, render target, the two composer
    bits and the GPU data buffer. *)
Definition gpu_bit (n : Z) : bool :=
  (n =? 8) || (n =? 9) || (n =? 11) || (n =? 12) || (n =? 24).

Definition no_gpu_bit (usage : Z) : Prop :=
  forall n, 0 <= n -> gpu_bit n = true -> Z.testbit usage n = false.

Definition desc_wf (d : Desc.t) : Prop :=
  in_u32 (Desc.width d) /\ in_u32 (Desc.height d) /\
  in_u32 (Desc.layerCount d) /\ in_u64 (Desc.usage d).

(** The check as the specification states it, for a set [S] of supported
    formats. *)
Definition spec_supported (S : Z -> bool) (d : Desc.t) : Prop :=
  S (Desc.format d) = true /\ Desc.layerCount d = 1 /\
  Desc.width d > 0 /\ Desc.height d > 0 /\ no_reserved_bit (Desc.usage d).

(** ** Sample values *)

(** A host on which every wait, flush and mapping succeeds. *)
Definition quiet_host : Host :=
  mkHost (fun _ _ => (0, 0)) (fun _ _ => 0) true false
         (fun f => (f =? PixelFormat.YV12) || (f =? PixelFormat.YCBCR_420_888))
         (fun w h => w * h * 3 / 2) (fun w h => w * h * 3 / 2)
         (fun _ _ => 32) (fun _ => true)
         (fun _ _ _ _ => (0, 1048576)) 4096 (-1).

(** An unlocked 64 by 64 RGBA buffer, CPU-readable and CPU-writable, with
    a host-side colour buffer and a mapping. *)
Definition sample_cb : Cb.t :=
  Cb.mk [5; 6] 7 PixelFormat.RGBA_8888 16384 0 51 64 64 6408 5121 4 64
        16384 65536 0 0 0 0 0 0.

Definition sample_region : Rect.t := Rect.mk 8 8 16 16.

(** An unlocked handle without a buffer behind it. *)
Definition sizeless_cb : Cb.t :=
  Cb.mk [5; 6] 0 PixelFormat.RGBA_8888 0 0 51 64 64 6408 5121 4 64
        0 0 0 0 0 0 0 0.

(** Two descriptors of a 64 by 64 RGB_888 buffer that differ in one usage
    bit, [GPU_TEXTURE], which is not reserved. *)
Definition rgb888_cpu_desc : Desc.t :=
  Desc.mk 64 64 1 PixelFormat.RGB_888 51.

Definition rgb888_gpu_desc : Desc.t :=
  Desc.mk 64 64 1 PixelFormat.RGB_888 (Z.lor 51 BufferUsage.GPU_TEXTURE).

(** A handle that declares a mapping of 16384 bytes and no descriptor to
    map it from. *)
Definition unbacked_cb : Cb.t :=
  Cb.mk [] 0 PixelFormat.RGBA_8888 16384 0 51 64 64 6408 5121 4 64
        16384 0 0 (-1) 0 0 0 0.

(** A fence handle with two descriptors. *)
Definition two_fd_fence : hidl_handle := Some (mkNativeHandle 2 0 [10; 11]).

(* ===================================================================== *)
(** ** The entry points of the interface *)
(* ===================================================================== *)

(** What the entry points hand to their callback; [None] when the process
    was aborted before the callback ran. *)
Module IMapper.

(** [importBuffer(hh, hidl_cb)]: the imported handle on [NONE], [nullptr]
    with any error. *)
Definition importBuffer (host : Host) (hh : raw_handle)
  : option (Error3 * raw_handle) :=
  match importBufferImpl host hh with
  | Done _ imported _ => Some (NONE, imported)
  | Left e _ _ => Some (e, None)
  | Aborted _ => None
  end.

(** [lock(raw, cpuUsage, accessRegion, acquireFence, hidl_cb)]: the three
    outputs on [NONE], [(nullptr, 0, 0)] with any error. *)
Definition lock (host : Host) (raw : raw_handle) (cpuUsage : Z)
           (accessRegion : Rect.t) (acquireFence : hidl_handle)
  : option (Error3 * LockOut) :=
  match lockImpl host raw cpuUsage accessRegion acquireFence with
  | Done out _ _ => Some (NONE, out)
  | Left e _ _ => Some (e, mkLockOut 0 0 0)
  | Aborted _ => None
  end.

(** [lockYCbCr(...)]: the layout on [NONE], the zero layout [{}] with any
    error. *)
Definition lockYCbCr (host : Host) (raw : raw_handle) (cpuUsage : Z)
           (accessRegion : Rect.t) (acquireFence : hidl_handle)
  : option (Error3 * YCbCrLayout3) :=
  match lockYCbCrImpl host raw cpuUsage accessRegion acquireFence with
  | Done ycbcr _ _ => Some (NONE, ycbcr)
  | Left e _ _ => Some (e, mkYCbCrLayout3 0 0 0 0 0 0)
  | Aborted _ => None
  end.

End IMapper.

Definition UINT32_MAX : Z := 2 ^ 32 - 1.

(** [encodeBufferDescriptorInfo(d, raw)]: five [uint32_t]. *)
Definition encodeBufferDescriptorInfo (d : Desc.t) : list Z :=
  [ Desc.width d;
    Desc.height d;
    Desc.layerCount d;
    u32 (Desc.format d);
    u32 (Z.land (Desc.usage d) UINT32_MAX) ].

(** [createDescriptor(description, hidl_cb)]. *)
Definition createDescriptor (description : Desc.t) : Error3 * list Z :=
  (NONE, encodeBufferDescriptorInfo description).

(* ===================================================================== *)
(** ** Construction of the mapper *)
(* ===================================================================== *)

(** What the constructor learns from the address-space allocator: whether
    it opened, the result of [hostMalloc(&bufferBits, 256)], and the
    physical address and the offset of the block it got. *)
Record AddressSpaceProbe : Type := mkProbe {
  is_opened : bool;
  hostMalloc : Z;
  physAddr : Z;
  offset : Z
}.

(** The constructor of [GoldfishMapper]: the value it leaves in
    [m_physAddrToOffset], or [None] where a [CRASH_IF] fires. *)
Definition GoldfishMapper_init (probe : AddressSpaceProbe) : option Z :=
  if negb (is_opened probe) then None
  else if negb (hostMalloc probe =? 0) then None
  else Some (u64 (physAddr probe - offset probe)).

(* ===================================================================== *)
(** ** The DMA binding of the render-control encoder

    [ExtendedRCEncoderContext] in [HostConnection.h]. *)
(* ===================================================================== *)

Module Dma.

(** [m_dmaCxt], [m_dmaPtr] and [m_dmaPhysAddr]; pointers as addresses. *)
Record t : Type := mk {
  m_dmaCxt : Z;
  m_dmaPtr : Z;
  m_dmaPhysAddr : Z
}.

(** The constructor: nothing bound. *)
Definition init : t := mk 0 0 0.

Definition bindDmaContext (cxt : Z) (s : t) : t :=
  mk cxt (m_dmaPtr s) (m_dmaPhysAddr s).

Definition bindDmaDirectly (dmaPtr dmaPhysAddr : Z) (s : t) : t :=
  mk (m_dmaCxt s) dmaPtr dmaPhysAddr.

(** What [lockAndWriteDma] does to memory. *)
Inductive effect : Type :=
| Memcpy (dst src size : Z)
| GoldfishDmaWrite (cxt data size : Z).

(** [lockAndWriteDma(data, size)]: the address it returns and what it did.
    [guest_paddr] is [goldfish_dma_guest_paddr]. *)
Definition lockAndWriteDma (guest_paddr : Z -> Z) (data size : Z) (s : t)
  : Z * list effect :=
  if negb (m_dmaPtr s =? 0) && negb (m_dmaPhysAddr s =? 0) then
    (m_dmaPhysAddr s,
     if negb (data =? m_dmaPtr s) then [Memcpy (m_dmaPtr s) data size]
     else [])
  else if negb (m_dmaCxt s =? 0) then
    (guest_paddr (m_dmaCxt s), [GoldfishDmaWrite (m_dmaCxt s) data size])
  else (0, []).

End Dma.

(* ===================================================================== *)
(** ** Further predicates and sample values *)
(* ===================================================================== *)

(** A result with calls that were made before it put in front. *)
Definition prepend {S A} (tr : trace) (r : result S A) : result S A :=
  match r with
  | Done a s t => Done a s (tr ++ t)
  | Left e s t => Left e s (tr ++ t)
  | Aborted t => Aborted (tr ++ t)
  end.

(** A computation that only appends to the trace it is given. *)
Definition appends {A} (c : M A) : Prop :=
  forall cb tr, c cb tr = prepend tr (c cb []).

(** [gralloc_is_yuv_format] and the format switches of the host steps know
    the same formats. *)
Definition yuv_formats_in_sync (host : Host) : Prop :=
  forall f, gralloc_is_yuv_format host f = true ->
            f = PixelFormat.YV12 \/ f = PixelFormat.YCBCR_420_888.

(** The handle passes the checks that [lock] and [lockYCbCr] make before
    they look at the fence. *)
Definition lockable (cb : Cb.t) (uncheckedUsage : Z) : Prop :=
  Cb.lockedUsage cb = 0 /\
  checkedUsageOf uncheckedUsage (Cb.usage cb) <> 0 /\
  Cb.bufferSize cb <> 0 /\ Cb.bufferPtr cb <> 0.

(** The calls that read a colour buffer back from the host. *)
Definition is_readback (ev : event) : bool :=
  match ev with
  | EvReadColorBufferYUV _ _ _ _
  | EvReadColorBuffer _ _ _ _ _
  | EvReadColorBufferDMA _ _ _ _ _ _ => true
  | _ => false
  end.

(** A host whose cache flush fails. *)
Definition failing_host : Host :=
  mkHost (fun _ _ => (0, 0)) (fun _ _ => -1) true false
         (fun f => (f =? PixelFormat.YV12) || (f =? PixelFormat.YCBCR_420_888))
         (fun w h => w * h * 3 / 2) (fun w h => w * h * 3 / 2)
         (fun _ _ => 32) (fun _ => true)
         (fun _ _ _ _ => (0, 1048576)) 4096 (-1).

(** A host on which every wait on a fence fails with [EBADF]. *)
Definition fenceless_host : Host :=
  mkHost (fun _ _ => (-1, 9)) (fun _ _ => 0) true false
         (fun f => (f =? PixelFormat.YV12) || (f =? PixelFormat.YCBCR_420_888))
         (fun w h => w * h * 3 / 2) (fun w h => w * h * 3 / 2)
         (fun _ _ => 32) (fun _ => true)
         (fun _ _ _ _ => (0, 1048576)) 4096 (-1).

(** A fence handle of one descriptor. *)
Definition one_fd_fence : hidl_handle := Some (mkNativeHandle 1 0 [10]).

(** The sample buffer without a host-side colour buffer. *)
Definition guest_only_cb : Cb.t :=
  Cb.mk [5; 6] 0 PixelFormat.RGBA_8888 16384 0 51 64 64 6408 5121 4 64
        16384 65536 0 0 0 0 0 0.

(** The sample buffer, unlocked, with a rectangle left over in its region
    fields. *)
Definition stale_cb : Cb.t :=
  Cb.mk [5; 6] 7 PixelFormat.RGBA_8888 16384 0 51 64 64 6408 5121 4 64
        16384 65536 0 0 1 2 3 4.

(** A 64 by 64 YV12 buffer, unlocked, with a mapping. *)
Definition yv12_cb : Cb.t :=
  Cb.mk [5; 6] 7 PixelFormat.YV12 6144 0 51 64 64 6408 5121 1 64
        6144 65536 0 0 0 0 0 0.

(* ===================================================================== *)
(** * Properties *)
(* ===================================================================== *)

(** ** Arithmetic of the machine types *)

Lemma wrap_small bits v : 0 <= v < 2 ^ bits -> wrap bits v = v.
Proof. intros H. unfold wrap. apply Z.mod_small. exact H. Qed.

Lemma size_t_small v : 0 <= v < 2 ^ 64 -> size_t v = v.
Proof. apply wrap_small. Qed.

Lemma u32_small v : 0 <= v < 2 ^ 32 -> u32 v = v.
Proof. apply wrap_small. Qed.

Lemma testbit_above x n k :
  0 <= x < 2 ^ n -> n <= k -> Z.testbit x k = false.
Proof.
  intros Hx Hk.
  destruct (Z.eq_dec x 0) as [-> | Hne]; [apply Z.bits_0 |].
  apply Z.bits_above_log2; [lia |].
  assert (Z.log2 x < n); [| lia].
  apply Z.log2_lt_pow2; lia.
Qed.

(** On a [size_t], masking with the 64-bit complement is masking with the
    complement. *)
Lemma land_size_not x a :
  0 <= x < 2 ^ 64 -> Z.land x (size_not a) = Z.land x (Z.lnot a).
Proof.
  intros Hx. apply Z.bits_inj'. intros k Hk.
  rewrite !Z.land_spec. unfold size_not, size_max.
  rewrite Z.lxor_spec, Z.lnot_spec by exact Hk.
  change (2 ^ 64 - 1) with (Z.ones 64).
  destruct (Z.lt_ge_cases k 64) as [Hlt | Hge].
  - rewrite Z.ones_spec_low by lia. rewrite xorb_true_r. reflexivity.
  - rewrite (testbit_above x 64 k Hx Hge). reflexivity.
Qed.

(** The specification's [align] to 16 rounds up to a multiple of 16. *)
Lemma spec_align_16 v : spec_align v 16 = 16 * ((v + 15) / 16).
Proof.
  unfold spec_align. replace (v + 16 - 1) with (v + 15) by lia.
  change (16 - 1) with (Z.ones 4).
  rewrite <- Z.ldiff_land, Z.ldiff_ones_r by lia.
  rewrite Z.shiftl_mul_pow2, Z.shiftr_div_pow2 by lia.
  change (2 ^ 4) with 16. lia.
Qed.

(** The code's [align] agrees with it as long as [v + 16] fits. *)
Lemma align_16 v : 0 <= v < 2 ^ 63 -> align v 16 = spec_align v 16.
Proof.
  intros Hv. unfold align, size_sub, size_add.
  assert (H64 : 2 ^ 64 = 2 * 2 ^ 63) by reflexivity.
  rewrite (size_t_small (v + 16)) by lia.
  rewrite (size_t_small (v + 16 - 1)) by lia.
  rewrite (size_t_small (16 - 1)) by (rewrite H64; lia).
  rewrite land_size_not by lia.
  reflexivity.
Qed.

Lemma spec_align_16_bounds v :
  0 <= v -> v <= spec_align v 16 <= v + 15.
Proof.
  intros Hv. rewrite spec_align_16.
  pose proof (Z.div_mod (v + 15) 16 ltac:(lia)).
  pose proof (Z.mod_pos_bound (v + 15) 16 ltac:(lia)).
  lia.
Qed.

(** ** The plane layout (C1) *)

Lemma layout_sp w h :
  0 < w < 2 ^ 32 -> 0 < h < 2 ^ 32 ->
  ycbcrPlaneLayout PixelFormat.YCRCB_420_SP w h
  = spec_layout PixelFormat.YCRCB_420_SP w h.
Proof.
  intros Hw Hh. unfold ycbcrPlaneLayout, spec_layout. simpl.
  unfold size_add, size_mul.
  assert (Hp : 0 <= w * h < 2 ^ 32 * 2 ^ 32) by nia.
  change (2 ^ 32 * 2 ^ 32) with (2 ^ 64) in Hp.
  assert (H32 : 2 ^ 32 < 2 ^ 64) by reflexivity.
  rewrite (size_t_small w) by lia.
  rewrite (size_t_small (w * h)) by lia.
  assert (w * h + 1 < 2 ^ 64).
  { assert (w * h <= (2 ^ 32 - 1) * (2 ^ 32 - 1)) by nia.
    change ((2 ^ 32 - 1) * (2 ^ 32 - 1)) with 18446744065119617025 in *.
    change (2 ^ 64) with 18446744073709551616. lia. }
  rewrite size_t_small by lia. reflexivity.
Qed.

Lemma layout_yv12 w h :
  0 < w < 2 ^ 32 -> 0 < h < 2 ^ 32 ->
  layout_representable PixelFormat.YV12 w h ->
  ycbcrPlaneLayout PixelFormat.YV12 w h = spec_layout PixelFormat.YV12 w h.
Proof.
  intros Hw Hh [_ Hrep].
  unfold ycbcrPlaneLayout, spec_layout in *. simpl in *.
  destruct Hrep as [Hu Hv].
  assert (H32 : 2 ^ 32 = 4294967296) by reflexivity.
  assert (H63 : 2 ^ 63 = 9223372036854775808) by reflexivity.
  assert (H64 : 2 ^ 64 = 18446744073709551616) by reflexivity.
  rewrite (align_16 w) by lia.
  pose proof (spec_align_16_bounds w ltac:(lia)) as Hys.
  set (ys := spec_align w 16) in *.
  unfold size_div.
  assert (Hhalf : 0 <= ys / 2 <= (w + 15) / 2).
  { split; [apply Z.div_pos; lia | apply Z.div_le_mono; lia]. }
  assert (Hhalf' : (w + 15) / 2 < 2147483656).
  { apply Z.div_lt_upper_bound; lia. }
  rewrite (align_16 (ys / 2)) by lia.
  pose proof (spec_align_16_bounds (ys / 2) ltac:(lia)) as Hcs.
  set (cs := spec_align (ys / 2) 16) in *.
  unfold size_mul, size_add.
  assert (0 <= ys * h) by nia.
  assert (0 <= cs * h < 2 ^ 64) by nia.
  assert (0 <= cs * h / 2) by (apply Z.div_pos; lia).
  rewrite (size_t_small (ys * h)) by lia.
  rewrite (size_t_small (cs * h)) by lia.
  rewrite (size_t_small (ys * h + cs * h / 2)) by lia.
  reflexivity.
Qed.

Lemma layout_420_888 w h :
  0 < w < 2 ^ 32 -> 0 < h < 2 ^ 32 ->
  layout_representable PixelFormat.YCBCR_420_888 w h ->
  ycbcrPlaneLayout PixelFormat.YCBCR_420_888 w h
  = spec_layout PixelFormat.YCBCR_420_888 w h.
Proof.
  intros Hw Hh [_ Hrep].
  unfold ycbcrPlaneLayout, spec_layout in *. simpl in *.
  destruct Hrep as [Hu Hv].
  assert (H32 : 2 ^ 32 = 4294967296) by reflexivity.
  assert (H64 : 2 ^ 64 = 18446744073709551616) by reflexivity.
  unfold size_div, size_mul, size_add.
  rewrite (size_t_small w) by lia.
  assert (0 <= w / 2 <= w).
  { split; [apply Z.div_pos; lia | apply Z.div_le_upper_bound; lia]. }
  assert (0 <= h * w) by nia.
  assert (0 <= w / 2 * h < 2 ^ 64) by nia.
  assert (0 <= w / 2 * h / 2) by (apply Z.div_pos; lia).
  rewrite (size_t_small (h * w)) by lia.
  rewrite (size_t_small (w / 2 * h)) by lia.
  rewrite (size_t_small (h * w + w / 2 * h / 2)) by lia.
  reflexivity.
Qed.

Lemma layout_p010 w h :
  0 < w < 2 ^ 32 -> 0 < h < 2 ^ 32 ->
  layout_representable PixelFormat.YCBCR_P010 w h ->
  ycbcrPlaneLayout PixelFormat.YCBCR_P010 w h
  = spec_layout PixelFormat.YCBCR_P010 w h.
Proof.
  intros Hw Hh [Hy Hrep]. specialize (Hy eq_refl).
  change (spec_layout PixelFormat.YCBCR_P010 w h)
    with (Some (mkPlaneLayout (2 * w) (2 * w) 4
                              (h * (2 * w)) (h * (2 * w) + 2))) in *.
  change (ycbcrPlaneLayout PixelFormat.YCBCR_P010 w h)
    with (Some (mkPlaneLayout (size_t (u32_mul w 2)) (size_t (u32_mul w 2)) 4
                  (size_mul h (size_t (u32_mul w 2)))
                  (size_add (size_mul h (size_t (u32_mul w 2))) 2))).
  cbn [uOffset vOffset] in Hrep.
  destruct Hrep as [Hu Hv].
  assert (H32 : 2 ^ 32 = 4294967296) by reflexivity.
  assert (H64 : 2 ^ 64 = 18446744073709551616) by reflexivity.
  unfold u32_mul, size_mul, size_add.
  replace (w * 2) with (2 * w) by lia.
  rewrite (u32_small (2 * w)) by lia.
  rewrite (size_t_small (2 * w)) by lia.
  assert (0 <= h * (2 * w)) by nia.
  rewrite (size_t_small (h * (2 * w))) by lia.
  rewrite (size_t_small (h * (2 * w) + 2)) by lia.
  reflexivity.
Qed.

(** C1 (as amended).  For a width and a height that a handle can hold
    (32-bit, positive) and for which the values of the table fit the types
    the code computes them in, the format switch of [lockYCbCrImpl] yields
    the table of the specification, row by row: stride, chroma stride,
    chroma step and the two plane offsets; a format outside the table is
    the [default:] branch on both sides. *)
Theorem ycbcr_layout_matches_table (format w h : Z) :
  0 < w < 2 ^ 32 -> 0 < h < 2 ^ 32 ->
  layout_representable format w h ->
  ycbcrPlaneLayout format w h = spec_layout format w h.
Proof.
  intros Hw Hh Hrep.
  destruct (Z.eq_dec format PixelFormat.YCRCB_420_SP) as [-> | N1];
    [apply layout_sp; assumption |].
  destruct (Z.eq_dec format PixelFormat.YV12) as [-> | N2];
    [apply layout_yv12; assumption |].
  destruct (Z.eq_dec format PixelFormat.YCBCR_420_888) as [-> | N3];
    [apply layout_420_888; assumption |].
  destruct (Z.eq_dec format PixelFormat.YCBCR_P010) as [-> | N4];
    [apply layout_p010; assumption |].
  unfold ycbcrPlaneLayout, spec_layout.
  apply Z.eqb_neq in N1, N2, N3, N4.
  rewrite N1, N2, N3, N4. reflexivity.
Qed.

(** The worked example of the specification: YV12, 17 by 10. *)
Lemma ycbcr_layout_yv12_17x10 :
  ycbcrPlaneLayout PixelFormat.YV12 17 10
  = Some (mkPlaneLayout 32 16 1 400 320).
Proof.
  rewrite (ycbcr_layout_matches_table PixelFormat.YV12 17 10).
  - reflexivity.
  - lia.
  - lia.
  - split; [discriminate | vm_compute; split; reflexivity].
Defined.

(** C1 as stated fails where the 32-bit product [cb->width * 2] wraps: a
    10-bit buffer 2^31 wide gets a Y stride of 0, not 2^32. *)
Lemma ycbcr_layout_p010_wraps :
  0 < 2147483648 < 2 ^ 32 /\ 0 < 1 < 2 ^ 32 /\
  ycbcrPlaneLayout PixelFormat.YCBCR_P010 2147483648 1
  = Some (mkPlaneLayout 0 0 4 0 2) /\
  spec_layout PixelFormat.YCBCR_P010 2147483648 1
  = Some (mkPlaneLayout 4294967296 4294967296 4 4294967296 4294967298) /\
  ycbcrPlaneLayout PixelFormat.YCBCR_P010 2147483648 1
  <> spec_layout PixelFormat.YCBCR_P010 2147483648 1.
Proof.
  repeat split; try reflexivity; try discriminate.
Qed.

(** ** Computations that only read the handle *)

Lemma frames_pure {A} (a : A) : frames (pure a).
Proof. intros cb tr. reflexivity. Qed.

Lemma frames_call ev : frames (call ev).
Proof. intros cb tr. reflexivity. Qed.

Lemma frames_this : frames this.
Proof. intros cb tr. reflexivity. Qed.

Lemma frames_CRASH {A} : frames (@CRASH A).
Proof. intros cb tr. exact I. Qed.

Lemma frames_RETURN_ERROR {A} e : frames (@RETURN_ERROR A e).
Proof. intros cb tr. reflexivity. Qed.

Lemma frames_bind {A B} (c : M A) (k : A -> M B) :
  frames c -> (forall a, frames (k a)) -> frames (bind c k).
Proof.
  intros Hc Hk cb tr. unfold bind.
  specialize (Hc cb tr).
  destruct (c cb tr) as [a cb' tr' | e cb' tr' | tr']; try assumption.
  subst cb'. apply Hk.
Qed.

Create HintDb frames.
#[local] Hint Resolve frames_pure frames_call frames_this frames_CRASH
  frames_RETURN_ERROR : frames.

Ltac frames_step :=
  match goal with
  | |- frames (bind _ _) => apply frames_bind; [| intros ?]
  | |- frames (if ?b then _ else _) => destruct b
  | |- frames (let (_, _) := ?p in _) => destruct p
  | |- frames (match ?x with _ => _ end) => destruct x
  | |- frames _ => solve [auto with frames]
  end.

Lemma frames_waitFenceFd host fd : frames (waitFenceFd host fd).
Proof. unfold waitFenceFd. repeat frames_step. Qed.

Lemma frames_waitHidlFence host f : frames (waitHidlFence host f).
Proof.
  unfold waitHidlFence. destruct f as [nh |]; [| auto with frames].
  repeat frames_step. apply frames_waitFenceFd.
Qed.

Lemma frames_lockHostImpl host u r bits : frames (lockHostImpl host u r bits).
Proof. unfold lockHostImpl. repeat frames_step. Qed.

Lemma frames_unlockHostImpl host bits : frames (unlockHostImpl host bits).
Proof. unfold unlockHostImpl. repeat frames_step. Qed.

(** A fence wait always comes back, with the handle untouched. *)
Lemma waitFenceFd_returns host fd cb tr :
  exists z tr', waitFenceFd host fd cb tr = Done z cb tr'.
Proof.
  unfold waitFenceFd, bind, call, pure.
  destruct (sync_wait host fd 5000) as [r e].
  destruct (r <? 0); [| eauto].
  destruct (e =? ETIME); [| eauto].
  destruct (sync_wait host fd (-1)) as [r' e'].
  destruct (r' <? 0); eauto.
Qed.

Lemma waitHidlFence_returns host f cb tr :
  exists z tr', waitHidlFence host f cb tr = Done z cb tr'.
Proof.
  unfold waitHidlFence. destruct f as [nh |]; [| unfold pure; eauto].
  destruct (numFds nh >? 1); [unfold pure; eauto |].
  destruct (negb (numInts nh =? 0)); [unfold pure; eauto |].
  apply waitFenceFd_returns.
Qed.

(** ** What a call to [lock], [lockYCbCr] or [unlock] does to the handle *)

Ltac test_eq a b :=
  destruct (Z.eqb_spec a b); cbn [negb]; cbv beta iota.

Ltac split_ifs :=
  repeat match goal with
         | |- context [if ?b then _ else _] => destruct b
         end.

(** The host step of a lock fails with [NO_RESOURCES] only; the host step
    of an unlock returns nothing. *)
Lemma lockHostImpl_error host u r bits cb tr :
  match lockHostImpl host u r bits cb tr with
  | Left e _ _ => e = NO_RESOURCES
  | _ => True
  end.
Proof.
  unfold lockHostImpl, bind, this, call, pure, CRASH, RETURN_ERROR.
  split_ifs; exact I || reflexivity.
Qed.

Lemma unlockHostImpl_error host bits cb tr :
  match unlockHostImpl host bits cb tr with
  | Left _ _ _ => False
  | _ => True
  end.
Proof.
  unfold unlockHostImpl, bind, this, call, pure, CRASH.
  split_ifs; exact I.
Qed.

(** A call to [lock] that returns [NONE] found the handle unlocked, with a
    usable request, a size and a mapping, and leaves it as [setLocked]
    writes it; a call that returns an error leaves the handle as it was. *)
Lemma lockBody_outcome host u r f cb tr :
  match lockBody host u r f cb tr with
  | Done out cb' _ =>
      Cb.lockedUsage cb = 0 /\
      checkedUsageOf u (Cb.usage cb) <> 0 /\
      Cb.bufferSize cb <> 0 /\ Cb.bufferPtr cb <> 0 /\
      cb' = lockedAs (checkedUsageOf u (Cb.usage cb)) r cb /\
      ptr out = Cb.bufferPtr cb
  | Left e cb' _ => cb' = cb /\ e <> NONE
  | Aborted _ => True
  end.
Proof.
  unfold lockBody, bind, this, RETURN_ERROR.
  test_eq (Cb.lockedUsage cb) 0; [| split; [reflexivity | discriminate]].
  test_eq (checkedUsageOf u (Cb.usage cb)) 0; [split; [reflexivity | discriminate] |].
  test_eq (Cb.bufferSize cb) 0; [split; [reflexivity | discriminate] |].
  test_eq (Cb.bufferPtr cb) 0; [split; [reflexivity | discriminate] |].
  destruct (waitHidlFence_returns host f cb tr) as (z & tr' & ->).
  test_eq z 0; [| split; [reflexivity | discriminate]].
  pose proof (frames_lockHostImpl host (checkedUsageOf u (Cb.usage cb)) r
                (Cb.bufferPtr cb) cb tr') as Hf.
  pose proof (lockHostImpl_error host (checkedUsageOf u (Cb.usage cb)) r
                (Cb.bufferPtr cb) cb tr') as He.
  destruct (negb (Cb.hostHandle cb =? 0)).
  - destruct (lockHostImpl host (checkedUsageOf u (Cb.usage cb)) r
                (Cb.bufferPtr cb) cb tr')
      as [[] cb' tr'' | e' cb' tr'' | tr''];
      [| split; [assumption | subst e'; discriminate] | exact I].
    subst cb'. unfold setLocked, store, pure. cbn [ptr]. tauto.
  - unfold setLocked, store, pure. cbn [ptr]. tauto.
Qed.

Lemma lockYCbCrBody_outcome host u r f cb tr :
  match lockYCbCrBody host u r f cb tr with
  | Done out cb' _ =>
      Cb.lockedUsage cb = 0 /\
      checkedUsageOf u (Cb.usage cb) <> 0 /\
      Cb.bufferSize cb <> 0 /\ Cb.bufferPtr cb <> 0 /\
      cb' = lockedAs (checkedUsageOf u (Cb.usage cb)) r cb /\
      exists l,
        ycbcrPlaneLayout (Cb.format cb) (Cb.width cb) (Cb.height cb) = Some l /\
        out = mkYCbCrLayout3 (Cb.bufferPtr cb)
                (u64 (Cb.bufferPtr cb + uOffset l))
                (u64 (Cb.bufferPtr cb + vOffset l))
                (u32 (yStride l)) (u32 (cStride l)) (u32 (cStep l))
  | Left e cb' _ => cb' = cb /\ e <> NONE
  | Aborted _ => True
  end.
Proof.
  unfold lockYCbCrBody, bind, this, RETURN_ERROR.
  test_eq (Cb.lockedUsage cb) 0; [| split; [reflexivity | discriminate]].
  test_eq (checkedUsageOf u (Cb.usage cb)) 0; [split; [reflexivity | discriminate] |].
  test_eq (Cb.bufferSize cb) 0; [split; [reflexivity | discriminate] |].
  test_eq (Cb.bufferPtr cb) 0; [split; [reflexivity | discriminate] |].
  destruct (waitHidlFence_returns host f cb tr) as (z & tr' & ->).
  test_eq z 0; [| split; [reflexivity | discriminate]].
  destruct (ycbcrPlaneLayout (Cb.format cb) (Cb.width cb) (Cb.height cb))
    as [l |]; [| split; [reflexivity | discriminate]].
  pose proof (frames_lockHostImpl host (checkedUsageOf u (Cb.usage cb)) r
                (Cb.bufferPtr cb) cb tr') as Hf.
  pose proof (lockHostImpl_error host (checkedUsageOf u (Cb.usage cb)) r
                (Cb.bufferPtr cb) cb tr') as He.
  destruct (negb (Cb.hostHandle cb =? 0)).
  - destruct (lockHostImpl host (checkedUsageOf u (Cb.usage cb)) r
                (Cb.bufferPtr cb) cb tr')
      as [[] cb' tr'' | e' cb' tr'' | tr''];
      [| split; [assumption | subst e'; discriminate] | exact I].
    subst cb'. unfold setLocked, store, pure.
    repeat (split; try assumption; try reflexivity). eauto.
  - unfold setLocked, store, pure.
    repeat (split; try assumption; try reflexivity). eauto.
Qed.

(** What [lockYCbCr] hands out is the layout of the format switch, placed
    at the mapped pointer. *)
Lemma lockYCbCrImpl_layout host cb u r f out raw' tr :
  lockYCbCrImpl host (Some (Buffer cb)) u r f = Done out raw' tr ->
  exists l,
    ycbcrPlaneLayout (Cb.format cb) (Cb.width cb) (Cb.height cb) = Some l /\
    y out = Cb.bufferPtr cb /\
    cb_ptr out = u64 (Cb.bufferPtr cb + uOffset l) /\
    cr_ptr out = u64 (Cb.bufferPtr cb + vOffset l) /\
    outYStride out = u32 (yStride l) /\
    outCStride out = u32 (cStride l) /\
    chromaStep out = u32 (cStep l).
Proof.
  intros H. unfold lockYCbCrImpl, on_handle in H. cbn [from] in H.
  pose proof (lockYCbCrBody_outcome host u r f cb []) as HY.
  destruct (lockYCbCrBody host u r f cb []) as [o cb' t | e cb' t | t];
    try discriminate.
  injection H as <- _ _.
  destruct HY as (_ & _ & _ & _ & _ & l & Hl & ->).
  exists l. repeat split. exact Hl.
Qed.

(** A call to [unlock] that returns [NONE] found the handle locked, with a
    size and a mapping, and leaves it with the lock state cleared; a call
    that returns an error leaves the handle as it was. *)
Lemma unlockBody_outcome host cb tr :
  match unlockBody host cb tr with
  | Done _ cb' _ =>
      Cb.lockedUsage cb <> 0 /\
      Cb.bufferSize cb <> 0 /\ Cb.bufferPtr cb <> 0 /\
      cb' = Cb.setLockState 0 0 0 0 0 cb
  | Left e cb' _ => cb' = cb /\ e <> NONE
  | Aborted _ => True
  end.
Proof.
  unfold unlockBody, bind, this, RETURN_ERROR.
  test_eq (Cb.lockedUsage cb) 0; [split; [reflexivity | discriminate] |].
  test_eq (Cb.bufferSize cb) 0; [split; [reflexivity | discriminate] |].
  test_eq (Cb.bufferPtr cb) 0; [split; [reflexivity | discriminate] |].
  pose proof (frames_unlockHostImpl host (Cb.bufferPtr cb) cb tr) as Hf.
  pose proof (unlockHostImpl_error host (Cb.bufferPtr cb) cb tr) as He.
  destruct (negb (Cb.hostHandle cb =? 0)).
  - destruct (unlockHostImpl host (Cb.bufferPtr cb) cb tr)
      as [[] cb' tr'' | e' cb' tr'' | tr'']; [| contradiction | exact I].
    subst cb'. unfold store. tauto.
  - unfold store, pure. tauto.
Qed.

(** The lock state that [setLocked] writes. *)
Lemma lockedAs_usage cu r cb : Cb.lockedUsage (lockedAs cu r cb) = cu.
Proof. unfold lockedAs. destruct (negb _); reflexivity. Qed.

Lemma lockedAs_memory cu r cb :
  Cb.bufferPtr (lockedAs cu r cb) = Cb.bufferPtr cb /\
  Cb.bufferSize (lockedAs cu r cb) = Cb.bufferSize cb /\
  Cb.hostHandle (lockedAs cu r cb) = Cb.hostHandle cb.
Proof. unfold lockedAs. destruct (negb _); repeat split. Qed.

(** ** The lock invariant (C2) *)

Lemma lock_invariant_lockedAs cu r cb :
  Cb.wf cb -> Cb.bufferSize cb <> 0 -> Cb.bufferPtr cb <> 0 ->
  lock_invariant (lockedAs cu r cb).
Proof.
  intros Hwf Hs Hp _.
  destruct (lockedAs_memory cu r cb) as (-> & -> & _).
  pose proof (Cb.wf_bufferSize cb Hwf) as Hb. unfold in_u32 in Hb.
  split; [assumption | lia].
Qed.

Lemma lock_invariant_unlocked cb :
  lock_invariant (Cb.setLockState 0 0 0 0 0 cb).
Proof. intros H. cbn in H. contradiction. Qed.

Lemma import_keeps_invariant host raw :
  raw_invariant raw -> map_yields_pointer host ->
  holds_after (importBufferImpl host raw).
Proof.
  intros Hinv Hmap. unfold importBufferImpl.
  destruct raw as [[nh | cb] |]; try exact I.
  - destruct (negb _); exact I.
  - destruct (negb _); [exact I |]. cbn [from].
    destruct (Cb.mmapedSize cb >? 0); [| exact Hinv].
    destruct (Cb.bufferFdIndex cb <? 0); [exact I |].
    specialize (Hmap (Cb.bufferPtr cb) (Cb.mmapedSize cb)
                     (nth (Z.to_nat (Cb.bufferFdIndex cb)) (Cb.fds cb) 0)
                     (Cb.mmapedOffset cb)).
    destruct (memoryMap host _ _ _ _) as [res p]. cbn [fst snd] in Hmap.
    destruct (Z.eqb_spec res 0) as [E | N]; cbn [negb]; [| exact I].
    cbn. intros Hl. cbn in Hl. cbn.
    split; [apply Hmap, E | apply Hinv, Hl].
Qed.

(** C2.  The invariant "a locked handle has a non-null mapped pointer and a
    positive buffer size" is kept by import, free, lock, lockYCbCr and
    unlock, whatever they return.  The handle becomes locked only in a call
    to lock or lockYCbCr that returns [NONE], and such a call has found the
    buffer size non-zero and the mapped pointer non-null; a call to unlock
    that returns [NONE] leaves [lockedUsage] at 0. *)
Theorem lock_invariant_preserved host raw u r f :
  raw_wf raw -> raw_invariant raw -> map_yields_pointer host ->
  holds_after (importBufferImpl host raw) /\
  holds_after (freeBuffer raw) /\
  holds_after (lockImpl host raw u r f) /\
  holds_after (lockYCbCrImpl host raw u r f) /\
  holds_after (unlockImpl host raw) /\
  (forall cb,
      from raw = Some cb ->
      (returned (lockImpl host raw u r f) = Some NONE \/
       returned (lockYCbCrImpl host raw u r f) = Some NONE) ->
      Cb.bufferSize cb <> 0 /\ Cb.bufferPtr cb <> 0) /\
  (forall cb',
      returned (unlockImpl host raw) = Some NONE ->
      from (handle_after (unlockImpl host raw)) = Some cb' ->
      Cb.lockedUsage cb' = 0).
Proof.
  intros Hwf Hinv Hmap.
  split; [apply import_keeps_invariant; assumption |].
  unfold freeBuffer, lockImpl, lockYCbCrImpl, unlockImpl, on_handle.
  unfold raw_wf, raw_invariant in Hwf, Hinv.
  destruct (from raw) as [cb |] eqn:Hfrom.
  2:{ cbn. unfold raw_invariant. rewrite Hfrom.
      repeat split; try exact I; try discriminate. }
  pose proof (lockBody_outcome host u r f cb []) as HL.
  pose proof (lockYCbCrBody_outcome host u r f cb []) as HY.
  pose proof (unlockBody_outcome host cb []) as HU.
  split; [exact I |].
  split.
  { destruct (lockBody host u r f cb []) as [o cb' tr | e cb' tr | tr];
      cbn; try exact I.
    - destruct HL as (_ & _ & Hs & Hp & -> & _).
      apply lock_invariant_lockedAs; assumption.
    - destruct HL as [-> _]. exact Hinv. }
  split.
  { destruct (lockYCbCrBody host u r f cb []) as [o cb' tr | e cb' tr | tr];
      cbn; try exact I.
    - destruct HY as (_ & _ & Hs & Hp & -> & _).
      apply lock_invariant_lockedAs; assumption.
    - destruct HY as [-> _]. exact Hinv. }
  split.
  { destruct (unlockBody host cb []) as [o cb' tr | e cb' tr | tr];
      cbn; try exact I.
    - destruct HU as (_ & _ & _ & ->). apply lock_invariant_unlocked.
    - destruct HU as [-> _]. exact Hinv. }
  split.
  { intros cb0 E. injection E as <-. intros [H | H].
    - destruct (lockBody host u r f cb []); cbn in H; try discriminate;
        [tauto | destruct HL; congruence].
    - destruct (lockYCbCrBody host u r f cb []); cbn in H; try discriminate;
        [tauto | destruct HY; congruence]. }
  { intros cb' H E.
    destruct (unlockBody host cb []) as [o cb1 tr | e cb1 tr | tr];
      cbn in H, E; try discriminate.
    - injection E as <-. destruct HU as (_ & _ & _ & ->). reflexivity.
    - destruct HU; congruence. }
Qed.

Lemma sample_cb_wf : Cb.wf sample_cb.
Proof. constructor; cbv; split; congruence. Qed.

Lemma quiet_host_maps : map_yields_pointer quiet_host.
Proof. intros addr len fd off _. cbn. discriminate. Qed.

(** The invariant at work: the sample buffer is locked for writing. *)
Lemma lock_invariant_preserved_sample :
  holds_after (lockImpl quiet_host (Some (Buffer sample_cb)) 48
                        sample_region None).
Proof.
  refine (proj1 (proj2 (proj2
            (lock_invariant_preserved quiet_host (Some (Buffer sample_cb)) 48
               sample_region None _ _ _)))).
  - exact sample_cb_wf.
  - intros H. exfalso. apply H. reflexivity.
  - exact quiet_host_maps.
Defined.

(** ** Locking a locked handle (C3) *)

(** C3.  On a handle that is already locked, lock and lockYCbCr return
    [BAD_VALUE]; they leave the whole handle, and with it [lockedUsage] and
    the locked region, as it was, and call nothing outside. *)
Theorem relock_rejected host cb u r f :
  Cb.lockedUsage cb <> 0 ->
  lockImpl host (Some (Buffer cb)) u r f
  = Left BAD_VALUE (Some (Buffer cb)) [] /\
  lockYCbCrImpl host (Some (Buffer cb)) u r f
  = Left BAD_VALUE (Some (Buffer cb)) [].
Proof.
  intros Hl. apply Z.eqb_neq in Hl.
  unfold lockImpl, lockYCbCrImpl, on_handle, lockBody, lockYCbCrBody.
  cbn [from]. unfold bind, this. rewrite Hl. split; reflexivity.
Qed.

(** The sample buffer, locked for reading. *)
Lemma relock_rejected_sample :
  lockImpl quiet_host
           (Some (Buffer (lockedAs 3 sample_region sample_cb))) 48
           sample_region None
  = Left BAD_VALUE (Some (Buffer (lockedAs 3 sample_region sample_cb))) [].
Proof.
  refine (proj1 (relock_rejected quiet_host
                   (lockedAs 3 sample_region sample_cb) 48 sample_region
                   None _)).
  cbn. discriminate.
Defined.

(** ** What a successful lock records (C5) *)

Lemma u32_of_nonneg v : 0 <= v < 2 ^ 31 -> u32 v = v.
Proof.
  intros H. apply u32_small.
  assert (2 ^ 32 = 2 * 2 ^ 31) by reflexivity. lia.
Qed.

Lemma region_words_nonneg r : rect_nonneg r -> region_words r = r.
Proof.
  intros (Hl & Ht & Hw & Hh). unfold region_words.
  rewrite !u32_of_nonneg by assumption. destruct r; reflexivity.
Qed.

(** The request masked by the buffer's usage and the CPU bits needs no
    truncation to fit the [uint8_t] it is stored in. *)
Lemma checkedUsageOf_exact u usage :
  checkedUsageOf u usage
  = Z.land (Z.land u usage)
           (Z.lor BufferUsage.CPU_READ_MASK BufferUsage.CPU_WRITE_MASK).
Proof.
  unfold checkedUsageOf, u8. apply wrap_small.
  change (Z.lor BufferUsage.CPU_READ_MASK BufferUsage.CPU_WRITE_MASK)
    with (Z.ones 8).
  rewrite Z.land_ones by lia. apply Z.mod_pos_bound. reflexivity.
Qed.

Lemma lockedAs_region cu r cb :
  Cb.lockedRegion (lockedAs cu r cb)
  = if Z.land cu BufferUsage.CPU_WRITE_MASK =? 0
    then Rect.mk 0 0 (Cb.width cb) (Cb.height cb)
    else region_words r.
Proof.
  unfold lockedAs. destruct (Z.land cu BufferUsage.CPU_WRITE_MASK =? 0);
    reflexivity.
Qed.

(** C5.  After a lock that returns [NONE], [lockedUsage] is the checked
    usage (the request masked by the declared usage and the CPU read and
    write bits); the locked region is the caller's rectangle, as 32-bit
    words, when the checked usage has a CPU-write bit, and the whole buffer
    [(0, 0, width, height)] when it has none. *)
Theorem lock_records_state host cb u r f out raw' tr :
  lockImpl host (Some (Buffer cb)) u r f = Done out raw' tr ->
  let checkedUsage :=
    Z.land (Z.land u (Cb.usage cb))
           (Z.lor BufferUsage.CPU_READ_MASK BufferUsage.CPU_WRITE_MASK) in
  exists cb',
    raw' = Some (Buffer cb') /\
    Cb.lockedUsage cb' = checkedUsage /\
    (Z.land checkedUsage BufferUsage.CPU_WRITE_MASK <> 0 ->
     Cb.lockedRegion cb' = region_words r /\
     (rect_nonneg r -> Cb.lockedRegion cb' = r)) /\
    (Z.land checkedUsage BufferUsage.CPU_WRITE_MASK = 0 ->
     Cb.lockedRegion cb' = Rect.mk 0 0 (Cb.width cb) (Cb.height cb)).
Proof.
  intros H cu. subst cu. rewrite <- checkedUsageOf_exact.
  unfold lockImpl, on_handle in H. cbn [from] in H.
  pose proof (lockBody_outcome host u r f cb []) as HL.
  destruct (lockBody host u r f cb []) as [o cb' t | e cb' t | t];
    try discriminate.
  injection H as _ <- _.
  destruct HL as (_ & _ & _ & _ & -> & _).
  exists (lockedAs (checkedUsageOf u (Cb.usage cb)) r cb).
  split; [reflexivity |]. split; [apply lockedAs_usage |].
  rewrite lockedAs_region.
  split; intros Hw.
  - apply Z.eqb_neq in Hw. rewrite Hw.
    split; [reflexivity | intros Hr; apply region_words_nonneg, Hr].
  - rewrite Hw. reflexivity.
Qed.

(** A read-only lock of a sub-rectangle of the sample buffer records the
    whole buffer. *)
Lemma lock_records_state_sample :
  exists cb',
    Cb.lockedUsage cb' = 3 /\ Cb.lockedRegion cb' = Rect.mk 0 0 64 64.
Proof.
  destruct (lock_records_state quiet_host sample_cb 3 sample_region None
              (mkLockOut 65536 4 256)
              (Some (Buffer (lockedAs 3 sample_region sample_cb)))
              [EvCacheFlush 7 true; EvReadColorBuffer 7 64 64 6408 5121]
              eq_refl)
    as (cb' & _ & Hu & _ & Hr).
  exists cb'. split; [exact Hu | exact (Hr eq_refl)].
Defined.

(** ** Lock, then unlock (C6) *)

(** The host step of an unlock aborts only in the [default:] of its format
    switch: a format that [gralloc_is_yuv_format] accepts and the switch
    does not know. *)
Lemma unlockHostImpl_abort host bits cb tr :
  match unlockHostImpl host bits cb tr with
  | Aborted _ =>
      gralloc_is_yuv_format host (Cb.format cb) = true /\
      Cb.format cb <> PixelFormat.YV12 /\
      Cb.format cb <> PixelFormat.YCBCR_420_888
  | _ => True
  end.
Proof.
  unfold unlockHostImpl, bind, this, call, pure, CRASH.
  destruct (negb _); [| exact I].
  destruct (gralloc_is_yuv_format host (Cb.format cb)); [| exact I].
  test_eq (Cb.format cb) PixelFormat.YV12; [exact I |].
  test_eq (Cb.format cb) PixelFormat.YCBCR_420_888; [exact I |].
  repeat split; assumption.
Qed.

Lemma unlock_after_lockedAs cu r cb :
  Cb.setLockState 0 0 0 0 0 (lockedAs cu r cb) = Cb.setLockState 0 0 0 0 0 cb.
Proof. unfold lockedAs. destruct (negb _); reflexivity. Qed.

(** C6.  After a lock that returned [NONE], an unlock that returns leaves
    the handle unlocked: [lockedUsage] is 0 and the locked region is
    [(0, 0, 0, 0)], whatever calls to the host were made on the way, and
    nothing else in the handle has changed since before the lock.  Such an
    unlock returns no error; the only other way out is the abort in the
    format switch of the host push. *)
Theorem lock_unlock_round_trip host host' cb u r f out raw1 tr1 :
  lockImpl host (Some (Buffer cb)) u r f = Done out raw1 tr1 ->
  match unlockImpl host' raw1 with
  | Done _ raw2 _ =>
      exists cb2,
        raw2 = Some (Buffer cb2) /\
        Cb.lockedUsage cb2 = 0 /\
        Cb.lockedRegion cb2 = Rect.mk 0 0 0 0 /\
        cb2 = Cb.setLockState 0 0 0 0 0 cb
  | Left _ _ _ => False
  | Aborted _ =>
      gralloc_is_yuv_format host' (Cb.format cb) = true /\
      Cb.format cb <> PixelFormat.YV12 /\
      Cb.format cb <> PixelFormat.YCBCR_420_888
  end.
Proof.
  intros H.
  unfold lockImpl, on_handle in H. cbn [from] in H.
  pose proof (lockBody_outcome host u r f cb []) as HL.
  destruct (lockBody host u r f cb []) as [o cb1 t | e cb1 t | t];
    try discriminate.
  injection H as _ <- _.
  destruct HL as (_ & Hcu & Hs & Hp & -> & _).
  set (cu := checkedUsageOf u (Cb.usage cb)) in *.
  destruct (lockedAs_memory cu r cb) as (Ep & Es & _).
  unfold unlockImpl, on_handle. cbn [from].
  unfold unlockBody, bind, this.
  rewrite lockedAs_usage, Ep, Es.
  apply Z.eqb_neq in Hcu, Hs, Hp. rewrite Hcu, Hs, Hp.
  pose proof (frames_unlockHostImpl host' (Cb.bufferPtr cb)
                (lockedAs cu r cb) []) as Hf.
  pose proof (unlockHostImpl_error host' (Cb.bufferPtr cb)
                (lockedAs cu r cb) []) as He.
  pose proof (unlockHostImpl_abort host' (Cb.bufferPtr cb)
                (lockedAs cu r cb) []) as Ha.
  assert (Ef : Cb.format (lockedAs cu r cb) = Cb.format cb)
    by (unfold lockedAs; destruct (negb _); reflexivity).
  rewrite Ef in Ha.
  destruct (negb (Cb.hostHandle (lockedAs cu r cb) =? 0)).
  - destruct (unlockHostImpl host' (Cb.bufferPtr cb) (lockedAs cu r cb) [])
      as [[] cb2 t2 | e2 cb2 t2 | t2]; [| contradiction | exact Ha].
    subst cb2. unfold store.
    exists (Cb.setLockState 0 0 0 0 0 (lockedAs cu r cb)).
    repeat split. apply unlock_after_lockedAs.
  - unfold pure, store.
    exists (Cb.setLockState 0 0 0 0 0 (lockedAs cu r cb)).
    repeat split. apply unlock_after_lockedAs.
Qed.

(** The sample buffer locked for writing and unlocked again: the pixels
    are pushed to the host and the lock state is cleared. *)
Lemma lock_unlock_round_trip_sample :
  exists raw1 raw2 tr2,
    unlockImpl quiet_host raw1 = Done tt raw2 tr2 /\
    existsb is_host_push tr2 = true /\
    exists cb2,
      raw2 = Some (Buffer cb2) /\ Cb.lockedUsage cb2 = 0 /\
      Cb.lockedRegion cb2 = Rect.mk 0 0 0 0.
Proof.
  exists (Some (Buffer (lockedAs 48 sample_region sample_cb))).
  pose proof (lock_unlock_round_trip quiet_host quiet_host sample_cb 48
                sample_region None (mkLockOut 65536 4 256)
                (Some (Buffer (lockedAs 48 sample_region sample_cb)))
                [EvCacheFlush 7 false] eq_refl) as H.
  destruct (unlockImpl quiet_host
              (Some (Buffer (lockedAs 48 sample_region sample_cb))))
    as [[] raw2 tr2 | e raw2 tr2 | tr2] eqn:E;
    [| contradiction | destruct H as (_ & Hn & _); exfalso; apply Hn;
                       vm_compute in E; discriminate].
  exists raw2, tr2. split; [reflexivity |].
  split.
  - vm_compute in E. injection E as _ <-. reflexivity.
  - destruct H as (cb2 & -> & Hu & Hr & _). exists cb2. repeat split; assumption.
Defined.

(** ** The usage check of [lock] (C4) *)

(** C4 as stated fails: with a usable request (checked usage 3) and a fence
    handle of two descriptors, [lock] on the unlocked sample buffer returns
    [BAD_VALUE]. *)
Lemma lock_bad_value_with_usable_request :
  Cb.lockedUsage sample_cb = 0 /\
  checkedUsageOf 3 (Cb.usage sample_cb) = 3 /\
  lockImpl quiet_host (Some (Buffer sample_cb)) 3 sample_region two_fd_fence
  = Left BAD_VALUE (Some (Buffer sample_cb)) [].
Proof. repeat split. Qed.

(** C4 (as amended).  On a valid, unlocked handle, with the checked usage
    [requested & declared & (CPU_READ_MASK | CPU_WRITE_MASK)]: a checked
    usage of zero makes [lock] return [BAD_VALUE] at once, the handle
    untouched; and [lock] returns [BAD_VALUE] exactly when the checked usage
    is zero or, the buffer having a size and a mapping, the wait on the
    acquire fence does not report success. *)
Theorem lock_bad_value_iff host cb u r f :
  Cb.lockedUsage cb = 0 ->
  let checkedUsage :=
    Z.land (Z.land u (Cb.usage cb))
           (Z.lor BufferUsage.CPU_READ_MASK BufferUsage.CPU_WRITE_MASK) in
  (checkedUsage = 0 ->
   lockImpl host (Some (Buffer cb)) u r f
   = Left BAD_VALUE (Some (Buffer cb)) []) /\
  (returned (lockImpl host (Some (Buffer cb)) u r f) = Some BAD_VALUE <->
   checkedUsage = 0 \/
   (Cb.bufferSize cb <> 0 /\ Cb.bufferPtr cb <> 0 /\
    value_of (waitHidlFence host f cb []) <> Some 0)).
Proof.
  intros Hl cu. subst cu. rewrite <- checkedUsageOf_exact.
  unfold lockImpl, on_handle. cbn [from].
  unfold lockBody, bind, this, RETURN_ERROR.
  rewrite Hl. cbn [Z.eqb negb].
  test_eq (checkedUsageOf u (Cb.usage cb)) 0.
  { split; [reflexivity |]. split; [intros _; left; assumption | reflexivity]. }
  split; [intros; contradiction |].
  test_eq (Cb.bufferSize cb) 0.
  { cbn. split; [discriminate | intros [? | (? & _)]; contradiction]. }
  test_eq (Cb.bufferPtr cb) 0.
  { cbn. split; [discriminate | intros [? | (_ & ? & _)]; contradiction]. }
  destruct (waitHidlFence_returns host f cb []) as (z & tr' & ->).
  cbn [value_of].
  test_eq z 0.
  2:{ cbn. split; [intros _; right | reflexivity].
      repeat split; try assumption. congruence. }
  subst z.
  pose proof (lockHostImpl_error host (checkedUsageOf u (Cb.usage cb)) r
                (Cb.bufferPtr cb) cb tr') as He.
  assert (Hrhs : ~ (checkedUsageOf u (Cb.usage cb) = 0 \/
                    Cb.bufferSize cb <> 0 /\ Cb.bufferPtr cb <> 0 /\
                    Some 0 <> Some 0)) by tauto.
  destruct (negb (Cb.hostHandle cb =? 0)).
  - destruct (lockHostImpl host (checkedUsageOf u (Cb.usage cb)) r
                (Cb.bufferPtr cb) cb tr') as [[] cb' t | e cb' t | t]; cbn.
    + split; [discriminate | tauto].
    + subst e. split; [discriminate | tauto].
    + split; [discriminate | tauto].
  - cbn. split; [discriminate | tauto].
Qed.

(** A request for CPU write access on the sample buffer locked with a
    fence that is malformed: the checked usage is not zero, the answer is
    [BAD_VALUE]. *)
Lemma lock_bad_value_iff_sample :
  returned (lockImpl quiet_host (Some (Buffer sample_cb)) 48 sample_region
                     two_fd_fence) = Some BAD_VALUE.
Proof.
  apply (proj2 (lock_bad_value_iff quiet_host sample_cb 48 sample_region
                  two_fd_fence eq_refl)).
  right. repeat split; discriminate.
Defined.

(** ** The error codes of [unlock] (C7) *)

(** C7 as stated fails: an unlocked handle of buffer size zero is answered
    [BAD_VALUE], not [BAD_BUFFER]; the lock state is tested first. *)
Lemma unlock_unlocked_sizeless :
  Cb.lockedUsage sizeless_cb = 0 /\ Cb.bufferSize sizeless_cb = 0 /\
  unlockImpl quiet_host (Some (Buffer sizeless_cb))
  = Left BAD_VALUE (Some (Buffer sizeless_cb)) [] /\
  returned (unlockImpl quiet_host (Some (Buffer sizeless_cb)))
  <> Some BAD_BUFFER.
Proof. repeat split. discriminate. Qed.

(** C7 (as amended).  [unlock] tests in this order: a null or unrecognized
    handle is [BAD_BUFFER]; a recognized handle that is not locked is
    [BAD_VALUE], whatever its buffer size; a locked handle whose buffer
    size is zero or whose mapped pointer is null is [BAD_BUFFER].  In each
    of these cases the handle is left as it was and nothing outside is
    called; in the remaining case no error is returned. *)
Theorem unlock_error_order host raw :
  match from raw with
  | None => unlockImpl host raw = Left BAD_BUFFER raw []
  | Some cb =>
      if Cb.lockedUsage cb =? 0 then
        unlockImpl host raw = Left BAD_VALUE raw []
      else if (Cb.bufferSize cb =? 0) || (Cb.bufferPtr cb =? 0) then
        unlockImpl host raw = Left BAD_BUFFER raw []
      else
        returned (unlockImpl host raw) = Some NONE \/
        returned (unlockImpl host raw) = None
  end.
Proof.
  unfold unlockImpl, on_handle.
  destruct raw as [[nh | cb] |]; cbn [from]; try reflexivity.
  pose proof (unlockBody_outcome host cb []) as HU.
  unfold unlockBody, bind, this, RETURN_ERROR in *.
  destruct (Cb.lockedUsage cb =? 0); [reflexivity |].
  destruct (Cb.bufferSize cb =? 0); [reflexivity |].
  destruct (Cb.bufferPtr cb =? 0); [reflexivity |]. cbn [orb].
  pose proof (unlockHostImpl_error host (Cb.bufferPtr cb) cb []) as He.
  destruct (negb (Cb.hostHandle cb =? 0)).
  - destruct (unlockHostImpl host (Cb.bufferPtr cb) cb [])
      as [[] cb' t | e cb' t | t]; cbn; tauto.
  - cbn. tauto.
Qed.

(** ** The acquire fence (C10) *)

Lemma lockHostImpl_no_wait host cu r bits cb :
  existsb is_sync_wait (calls (lockHostImpl host cu r bits cb [])) = false.
Proof.
  unfold lockHostImpl, bind, this, call, pure, CRASH, RETURN_ERROR.
  split_ifs; reflexivity.
Qed.

Lemma malformed_fence_refused host nh cb tr :
  malformed_fence nh ->
  waitHidlFence host (Some nh) cb tr = Done (- EINVAL) cb tr.
Proof.
  intros [H | H]; unfold waitHidlFence.
  - apply Z.gt_lt, Z.gtb_lt in H. rewrite H. reflexivity.
  - apply Z.eqb_neq in H. rewrite H. cbn [negb].
    destruct (numFds nh >? 1); reflexivity.
Qed.

(** What the fence handle decides: with the empty handle nothing is waited
    on and [BAD_VALUE] is not the answer; a malformed handle is refused. *)
Lemma fence_checks host cb u r :
  Cb.lockedUsage cb = 0 ->
  checkedUsageOf u (Cb.usage cb) <> 0 ->
  Cb.bufferSize cb <> 0 -> Cb.bufferPtr cb <> 0 ->
  let raw := Some (Buffer cb) in
  (existsb is_sync_wait (calls (lockImpl host raw u r None)) = false /\
   existsb is_sync_wait (calls (lockYCbCrImpl host raw u r None)) = false /\
   returned (lockImpl host raw u r None) <> Some BAD_VALUE /\
   returned (lockImpl host raw u r None) <> Some BAD_BUFFER /\
   returned (lockYCbCrImpl host raw u r None) <> Some BAD_VALUE /\
   (Cb.hostHandle cb = 0 ->
    returned (lockImpl host raw u r None) = Some NONE /\
    handle_after (lockImpl host raw u r None)
    = Some (Buffer (lockedAs (checkedUsageOf u (Cb.usage cb)) r cb)))) /\
  (forall nh,
      malformed_fence nh ->
      lockImpl host raw u r (Some nh) = Left BAD_VALUE raw [] /\
      lockYCbCrImpl host raw u r (Some nh) = Left BAD_VALUE raw []).
Proof.
  intros Hl Hcu Hs Hp raw. subst raw.
  apply Z.eqb_neq in Hcu, Hs, Hp.
  unfold lockImpl, lockYCbCrImpl, on_handle. cbn [from].
  unfold lockBody, lockYCbCrBody, bind, this, RETURN_ERROR. cbv zeta.
  rewrite Hl, Hcu, Hs, Hp. cbn [Z.eqb negb].
  split.
  - change (waitHidlFence host None cb []) with (@Done Cb.t Z 0 cb []).
    cbv beta iota. cbn [Z.eqb negb]. unfold setLocked, store.
    pose proof (lockHostImpl_no_wait host (checkedUsageOf u (Cb.usage cb)) r
                  (Cb.bufferPtr cb) cb) as Hw.
    pose proof (lockHostImpl_error host (checkedUsageOf u (Cb.usage cb)) r
                  (Cb.bufferPtr cb) cb []) as He.
    pose proof (frames_lockHostImpl host (checkedUsageOf u (Cb.usage cb)) r
                  (Cb.bufferPtr cb) cb []) as Hf.
    destruct (ycbcrPlaneLayout (Cb.format cb) (Cb.width cb) (Cb.height cb))
      as [l |];
      (destruct (Z.eqb_spec (Cb.hostHandle cb) 0) as [E | N]; cbn [negb];
       [unfold pure; cbn; repeat split; try discriminate
       | destruct (lockHostImpl host (checkedUsageOf u (Cb.usage cb)) r
                     (Cb.bufferPtr cb) cb [])
           as [[] cb' t | e cb' t | t];
         unfold pure; cbn in *; subst;
         repeat split; try assumption; try discriminate;
         try (intros; contradiction)]).
  - intros nh Hm.
    rewrite (malformed_fence_refused host nh cb [] Hm).
    cbn. split; reflexivity.
Qed.

(** With the empty fence handle the calls go on as if the fence had
    signalled: lock is the host step (if there is a host handle) and then
    [setLocked]; lockYCbCr is the format switch, then the same. *)
Lemma null_fence_proceeds host cb u r :
  Cb.lockedUsage cb = 0 ->
  checkedUsageOf u (Cb.usage cb) <> 0 ->
  Cb.bufferSize cb <> 0 -> Cb.bufferPtr cb <> 0 ->
  let raw := Some (Buffer cb) in
  let cu := checkedUsageOf u (Cb.usage cb) in
  let locked := Some (Buffer (lockedAs cu r cb)) in
  lockImpl host raw u r None =
  (let out := mkLockOut (Cb.bufferPtr cb) (i32 (Cb.bytesPerPixel cb))
                (i32 (u32 (Cb.bytesPerPixel cb * Cb.stride cb))) in
   if negb (Cb.hostHandle cb =? 0) then
     match lockHostImpl host cu r (Cb.bufferPtr cb) cb [] with
     | Done _ _ hs => Done out locked hs
     | Left e _ hs => Left e raw hs
     | Aborted hs => Aborted hs
     end
   else Done out locked []) /\
  lockYCbCrImpl host raw u r None =
  match ycbcrPlaneLayout (Cb.format cb) (Cb.width cb) (Cb.height cb) with
  | None => Left BAD_BUFFER raw []
  | Some l =>
      let out := mkYCbCrLayout3 (Cb.bufferPtr cb)
                   (u64 (Cb.bufferPtr cb + uOffset l))
                   (u64 (Cb.bufferPtr cb + vOffset l))
                   (u32 (yStride l)) (u32 (cStride l)) (u32 (cStep l)) in
      if negb (Cb.hostHandle cb =? 0) then
        match lockHostImpl host cu r (Cb.bufferPtr cb) cb [] with
        | Done _ _ hs => Done out locked hs
        | Left e _ hs => Left e raw hs
        | Aborted hs => Aborted hs
        end
      else Done out locked []
  end.
Proof.
  intros Hl Hcu Hs Hp raw cu locked. subst raw cu locked.
  apply Z.eqb_neq in Hcu, Hs, Hp.
  unfold lockImpl, lockYCbCrImpl, on_handle. cbn [from].
  unfold lockBody, lockYCbCrBody, bind, this, RETURN_ERROR. cbv zeta.
  rewrite Hl, Hcu, Hs, Hp. cbn [Z.eqb negb].
  change (waitHidlFence host None cb []) with (@Done Cb.t Z 0 cb []).
  cbv beta iota. cbn [Z.eqb negb]. unfold setLocked, store, pure.
  pose proof (frames_lockHostImpl host (checkedUsageOf u (Cb.usage cb)) r
                (Cb.bufferPtr cb) cb []) as Hf.
  split.
  - destruct (negb (Cb.hostHandle cb =? 0)); [| reflexivity].
    destruct (lockHostImpl host (checkedUsageOf u (Cb.usage cb)) r
                (Cb.bufferPtr cb) cb [])
      as [[] cb' hs | e cb' hs | hs]; try subst cb'; reflexivity.
  - destruct (ycbcrPlaneLayout (Cb.format cb) (Cb.width cb) (Cb.height cb))
      as [l |]; [| reflexivity].
    destruct (negb (Cb.hostHandle cb =? 0)); [| reflexivity].
    destruct (lockHostImpl host (checkedUsageOf u (Cb.usage cb)) r
                (Cb.bufferPtr cb) cb [])
      as [[] cb' hs | e cb' hs | hs]; try subst cb'; reflexivity.
Qed.

(** C10.  On a valid, unlocked handle that passes the usage, size and
    mapping checks.  With the empty fence handle, lock and lockYCbCr wait
    on nothing, do not answer [BAD_VALUE], and proceed as if the fence had
    signalled: lock goes on to the host step (if there is a host handle)
    and then records the lock; lockYCbCr goes on to the format switch,
    which alone can make it answer [BAD_BUFFER], then to the host step and
    the recording of the lock with the plane layout handed out; without a
    host handle both take the lock at once.  With a fence handle of more
    than one descriptor, or with integer fields, both return [BAD_VALUE],
    the handle unchanged and nothing outside called. *)
Theorem fence_handling host cb u r :
  Cb.lockedUsage cb = 0 ->
  checkedUsageOf u (Cb.usage cb) <> 0 ->
  Cb.bufferSize cb <> 0 -> Cb.bufferPtr cb <> 0 ->
  let raw := Some (Buffer cb) in
  let cu := checkedUsageOf u (Cb.usage cb) in
  let locked := Some (Buffer (lockedAs cu r cb)) in
  let layout :=
    ycbcrPlaneLayout (Cb.format cb) (Cb.width cb) (Cb.height cb) in
  let planes l :=
    mkYCbCrLayout3 (Cb.bufferPtr cb)
      (u64 (Cb.bufferPtr cb + uOffset l)) (u64 (Cb.bufferPtr cb + vOffset l))
      (u32 (yStride l)) (u32 (cStride l)) (u32 (cStep l)) in
  (* the empty handle: nothing waited on, no BAD_VALUE *)
  (existsb is_sync_wait (calls (lockImpl host raw u r None)) = false /\
   existsb is_sync_wait (calls (lockYCbCrImpl host raw u r None)) = false /\
   returned (lockImpl host raw u r None) <> Some BAD_VALUE /\
   returned (lockImpl host raw u r None) <> Some BAD_BUFFER /\
   returned (lockYCbCrImpl host raw u r None) <> Some BAD_VALUE /\
   (Cb.hostHandle cb = 0 ->
    returned (lockImpl host raw u r None) = Some NONE /\
    handle_after (lockImpl host raw u r None) = locked)) /\
  (* the empty handle: lock proceeds *)
  (lockImpl host raw u r None =
   (let out := mkLockOut (Cb.bufferPtr cb) (i32 (Cb.bytesPerPixel cb))
                 (i32 (u32 (Cb.bytesPerPixel cb * Cb.stride cb))) in
    if negb (Cb.hostHandle cb =? 0) then
      match lockHostImpl host cu r (Cb.bufferPtr cb) cb [] with
      | Done _ _ hs => Done out locked hs
      | Left e _ hs => Left e raw hs
      | Aborted hs => Aborted hs
      end
    else Done out locked [])) /\
  (* the empty handle: lockYCbCr proceeds *)
  (lockYCbCrImpl host raw u r None =
   match layout with
   | None => Left BAD_BUFFER raw []
   | Some l =>
       if negb (Cb.hostHandle cb =? 0) then
         match lockHostImpl host cu r (Cb.bufferPtr cb) cb [] with
         | Done _ _ hs => Done (planes l) locked hs
         | Left e _ hs => Left e raw hs
         | Aborted hs => Aborted hs
         end
       else Done (planes l) locked []
   end) /\
  (returned (lockYCbCrImpl host raw u r None) = Some BAD_BUFFER <->
   layout = None) /\
  (forall l, layout = Some l -> Cb.hostHandle cb = 0 ->
             lockYCbCrImpl host raw u r None = Done (planes l) locked []) /\
  (forall l, layout = Some l ->
             returned (lockYCbCrImpl host raw u r None) = Some NONE ->
             handle_after (lockYCbCrImpl host raw u r None) = locked /\
             value_of (lockYCbCrImpl host raw u r None) = Some (planes l)) /\
  (* a malformed handle *)
  (forall nh,
      malformed_fence nh ->
      lockImpl host raw u r (Some nh) = Left BAD_VALUE raw [] /\
      lockYCbCrImpl host raw u r (Some nh) = Left BAD_VALUE raw []).
Proof.
  intros Hl Hcu Hs Hp raw cu locked layout planes.
  destruct (fence_checks host cb u r Hl Hcu Hs Hp) as [Hnull Hbad].
  destruct (null_fence_proceeds host cb u r Hl Hcu Hs Hp) as [EL EY].
  subst raw cu locked layout planes. cbv zeta in *.
  split; [exact Hnull |]. split; [exact EL |]. split; [exact EY |].
  pose proof (lockHostImpl_error host (checkedUsageOf u (Cb.usage cb)) r
                (Cb.bufferPtr cb) cb []) as He.
  rewrite EY.
  split; [| split; [| split; [| exact Hbad]]].
  - destruct (ycbcrPlaneLayout (Cb.format cb) (Cb.width cb) (Cb.height cb))
      as [l |]; [| split; intros; reflexivity].
    split; [| discriminate].
    destruct (negb (Cb.hostHandle cb =? 0)); [| discriminate].
    destruct (lockHostImpl host (checkedUsageOf u (Cb.usage cb)) r
                (Cb.bufferPtr cb) cb [])
      as [[] cb' hs | e cb' hs | hs]; cbn; try discriminate.
    subst e. discriminate.
  - intros l El Hh. rewrite El, Hh. reflexivity.
  - intros l El. rewrite El.
    destruct (negb (Cb.hostHandle cb =? 0)); [| cbn; auto].
    destruct (lockHostImpl host (checkedUsageOf u (Cb.usage cb)) r
                (Cb.bufferPtr cb) cb [])
      as [[] cb' hs | e cb' hs | hs]; cbn; try discriminate; auto.
    subst e. discriminate.
Qed.

(** The YV12 sample buffer is locked through lockYCbCr with the empty
    fence handle, and refused with a fence handle of two descriptors. *)
Lemma fence_handling_sample :
  returned (lockYCbCrImpl quiet_host (Some (Buffer yv12_cb)) 3 sample_region
                          None) = Some NONE /\
  value_of (lockYCbCrImpl quiet_host (Some (Buffer yv12_cb)) 3 sample_region
                          None)
  = Some (mkYCbCrLayout3 65536 70656 69632 64 32 1) /\
  lockYCbCrImpl quiet_host (Some (Buffer yv12_cb)) 3 sample_region
                two_fd_fence
  = Left BAD_VALUE (Some (Buffer yv12_cb)) [].
Proof.
  destruct (fence_handling quiet_host yv12_cb 3 sample_region
              eq_refl
              ltac:(vm_compute; discriminate)
              ltac:(vm_compute; discriminate)
              ltac:(vm_compute; discriminate))
    as (_ & _ & _ & _ & _ & Hok & Hbad).
  split; [reflexivity |].
  split.
  - exact (proj2 (Hok (mkPlaneLayout 64 32 1 5120 4096) eq_refl eq_refl)).
  - apply (Hbad (mkNativeHandle 2 0 [10; 11])). left. reflexivity.
Defined.

(** ** The descriptor support check (C8) *)

Lemma land_zero_bits a m :
  Z.land a m = 0 <->
  (forall n, 0 <= n -> Z.testbit m n = true -> Z.testbit a n = false).
Proof.
  split.
  - intros H n Hn Hm.
    assert (Hb : Z.testbit (Z.land a m) n = false)
      by (rewrite H; apply Z.bits_0).
    rewrite Z.land_spec, Hm, andb_true_r in Hb. exact Hb.
  - intros H. apply Z.bits_inj'. intros n Hn.
    rewrite Z.land_spec, Z.bits_0.
    destruct (Z.testbit m n) eqn:Hm; [| apply andb_false_r].
    rewrite (H n Hn Hm). reflexivity.
Qed.

(** The bits of a mask, checked one by one below a bound. *)
Lemma mask_bits (m : Z) (p : Z -> bool) (B : nat) :
  0 <= m < 2 ^ Z.of_nat B ->
  forallb (fun n => Bool.eqb (Z.testbit m n) (p n))
          (map Z.of_nat (seq 0 B)) = true ->
  (forall n, Z.of_nat B <= n -> p n = false) ->
  forall n, 0 <= n -> Z.testbit m n = p n.
Proof.
  intros Hm Hlow Hhigh n Hn.
  destruct (Z.lt_ge_cases n (Z.of_nat B)) as [Hlt | Hge].
  - rewrite forallb_forall in Hlow.
    apply Bool.eqb_prop, Hlow.
    rewrite <- (Z2Nat.id n Hn). apply in_map, in_seq. lia.
  - rewrite (Hhigh n Hge). apply (testbit_above m (Z.of_nat B)); assumption.
Qed.

Lemma kReservedUsage_bits n :
  0 <= n -> Z.testbit kReservedUsage n = reserved_bit n.
Proof.
  apply (mask_bits kReservedUsage reserved_bit 48).
  - vm_compute. split; [discriminate | reflexivity].
  - vm_compute. reflexivity.
  - intros k Hk. unfold reserved_bit.
    repeat match goal with
           | |- context [?a =? ?b] => destruct (Z.eqb_spec a b); [lia |]
           end.
    destruct (Z.leb_spec 25 k), (Z.leb_spec k 27), (Z.leb_spec 32 k),
      (Z.leb_spec k 47); try reflexivity; cbn in Hk; lia.
Qed.

Lemma gpu_mask_bits n :
  0 <= n ->
  Z.testbit (Z.lor (Z.lor (Z.lor (Z.lor BufferUsage.GPU_TEXTURE
                                        BufferUsage.GPU_RENDER_TARGET)
                                 BufferUsage.COMPOSER_OVERLAY)
                          BufferUsage.COMPOSER_CLIENT_TARGET)
                   BufferUsage.GPU_DATA_BUFFER) n
  = gpu_bit n.
Proof.
  apply (mask_bits _ gpu_bit 25).
  - vm_compute. split; [discriminate | reflexivity].
  - vm_compute. reflexivity.
  - intros k Hk. unfold gpu_bit. cbn in Hk.
    repeat match goal with
           | |- context [?a =? ?b] => destruct (Z.eqb_spec a b); [lia |]
           end.
    reflexivity.
Qed.

Lemma no_reserved_bit_iff usage :
  Z.land usage kReservedUsage = 0 <-> no_reserved_bit usage.
Proof.
  rewrite land_zero_bits. unfold no_reserved_bit.
  split; intros H n Hn Hb; apply H; try assumption.
  - rewrite kReservedUsage_bits; assumption.
  - rewrite <- kReservedUsage_bits; assumption.
Qed.

Lemma u32_testbit v n : 0 <= n < 32 -> Z.testbit (u32 v) n = Z.testbit v n.
Proof. intros H. unfold u32, wrap. apply Z.mod_pow2_bits_low. lia. Qed.

Lemma needGpuBuffer_iff usage :
  needGpuBuffer (u32 usage) = false <-> no_gpu_bit usage.
Proof.
  unfold needGpuBuffer. rewrite negb_false_iff, Z.eqb_eq, land_zero_bits.
  unfold no_gpu_bit.
  assert (Hlow : forall n, gpu_bit n = true -> 0 <= n < 32).
  { intros n. unfold gpu_bit.
    repeat match goal with
           | |- context [?a =? ?b] => destruct (Z.eqb_spec a b); [lia |]
           end.
    discriminate. }
  split; intros H n Hn Hb.
  - rewrite <- (u32_testbit usage n) by (apply Hlow, Hb).
    apply H; [assumption |]. rewrite gpu_mask_bits; assumption.
  - rewrite gpu_mask_bits in Hb by assumption.
    rewrite u32_testbit by (apply Hlow, Hb). apply H; assumption.
Qed.

Lemma video_decoder_iff usage :
  negb (Z.land (u32 usage) BufferUsage.VIDEO_DECODER =? 0) = true <->
  Z.testbit usage 22 = true.
Proof.
  rewrite negb_true_iff, Z.eqb_neq, land_zero_bits.
  change BufferUsage.VIDEO_DECODER with (2 ^ 22).
  split.
  - intros H. destruct (Z.testbit usage 22) eqn:E; [reflexivity |].
    exfalso. apply H. intros n Hn Hb.
    rewrite Z.pow2_bits_eqb in Hb by lia.
    apply Z.eqb_eq in Hb. subst n.
    rewrite u32_testbit by lia. exact E.
  - intros E H.
    specialize (H 22 ltac:(lia) ltac:(apply Z.pow2_bits_true; lia)).
    rewrite u32_testbit in H by lia. congruence.
Qed.

(** C8 as stated fails: the answer for an RGB_888 buffer turns on the
    [GPU_TEXTURE] bit, which is not reserved, so no set of supported
    formats makes the stated equivalence true. *)
Lemma isSupported_depends_on_usage :
  isSupportedImpl rgb888_cpu_desc = true /\
  isSupportedImpl rgb888_gpu_desc = false /\
  no_reserved_bit (Desc.usage rgb888_gpu_desc) /\
  ~ exists S : Z -> bool,
      forall d, desc_wf d -> (isSupportedImpl d = true <-> spec_supported S d).
Proof.
  assert (Hcpu : isSupportedImpl rgb888_cpu_desc = true) by reflexivity.
  assert (Hgpu : isSupportedImpl rgb888_gpu_desc = false) by reflexivity.
  assert (Hres : no_reserved_bit (Desc.usage rgb888_gpu_desc))
    by (apply no_reserved_bit_iff; reflexivity).
  repeat split; try assumption.
  intros [S HS].
  assert (W1 : desc_wf rgb888_cpu_desc)
    by (repeat split; cbv; congruence).
  assert (W2 : desc_wf rgb888_gpu_desc)
    by (repeat split; cbv; congruence).
  destruct (proj1 (HS _ W1) Hcpu) as (HSf & _).
  assert (Hsup : spec_supported S rgb888_gpu_desc).
  { split; [exact HSf |]. repeat split; try exact Hres; reflexivity. }
  apply (HS _ W2) in Hsup. congruence.
Qed.

Lemma format_cpu_only_cases f :
  format_cpu_only f = true ->
  format_always_supported f = false /\
  (f =? PixelFormat.IMPLEMENTATION_DEFINED) = false /\
  f <> kOMX_COLOR_FormatYUV420Planar.
Proof.
  unfold format_cpu_only.
  rewrite !orb_true_iff, !Z.eqb_eq.
  intros H. decompose [or] H; subst f; repeat split; discriminate.
Qed.

(** C8 (as amended).  The support check answers true exactly when width
    and height are positive, the layer count is 1, none of the reserved
    usage bits (10, 13, 19, 21, 25-27, 32-47) is set, and the format is
    acceptable for the usage: one of the nine formats supported for every
    usage; or one of RGB_888, YCRCB_420_SP, RAW16, Y16, BLOB with none of
    the GPU usage bits (8, 9, 11, 12, 24); or the OMX planar format 19
    with the video-decoder bit (22). *)
Theorem isSupported_iff d :
  desc_wf d ->
  (isSupportedImpl d = true <->
   Desc.width d > 0 /\ Desc.height d > 0 /\ Desc.layerCount d = 1 /\
   no_reserved_bit (Desc.usage d) /\
   (format_always_supported (Desc.format d) = true \/
    (format_cpu_only (Desc.format d) = true /\ no_gpu_bit (Desc.usage d)) \/
    (Desc.format d = kOMX_COLOR_FormatYUV420Planar /\
     Z.testbit (Desc.usage d) 22 = true))).
Proof.
  intros (Hw & Hh & _ & _). unfold in_u32 in Hw, Hh.
  unfold isSupportedImpl.
  change ((Desc.format d =? PixelFormat.RGBA_8888)
          || (Desc.format d =? PixelFormat.RGBX_8888)
          || (Desc.format d =? PixelFormat.BGRA_8888)
          || (Desc.format d =? PixelFormat.RGB_565)
          || (Desc.format d =? PixelFormat.RGBA_FP16)
          || (Desc.format d =? PixelFormat.RGBA_1010102)
          || (Desc.format d =? PixelFormat.YV12)
          || (Desc.format d =? PixelFormat.YCBCR_420_888)
          || (Desc.format d =? PixelFormat.YCBCR_P010))
    with (format_always_supported (Desc.format d)).
  change ((Desc.format d =? PixelFormat.RGB_888)
          || (Desc.format d =? PixelFormat.YCRCB_420_SP)
          || (Desc.format d =? PixelFormat.RAW16)
          || (Desc.format d =? PixelFormat.Y16)
          || (Desc.format d =? PixelFormat.BLOB))
    with (format_cpu_only (Desc.format d)).
  rewrite <- no_reserved_bit_iff, <- needGpuBuffer_iff, <- video_decoder_iff.
  destruct (Z.eqb_spec (Desc.width d) 0) as [Ew | Nw];
    [split; [discriminate | lia] |].
  destruct (Z.eqb_spec (Desc.height d) 0) as [Eh | Nh];
    [split; [discriminate | lia] |].
  destruct (Z.eqb_spec (Desc.layerCount d) 1) as [El | Nl]; cbn [negb];
    [| split; [discriminate | tauto]].
  destruct (Z.eqb_spec (Z.land (Desc.usage d) kReservedUsage) 0)
    as [Er | Nr]; cbn [negb]; [| split; [discriminate | tauto]].
  cbv zeta.
  destruct (format_always_supported (Desc.format d)) eqn:EA.
  { split; [| reflexivity]. intros _. repeat split; try lia; auto. }
  destruct (Z.eqb_spec (Desc.format d) PixelFormat.IMPLEMENTATION_DEFINED)
    as [Ei | Ni].
  { split; [discriminate |]. rewrite Ei.
    intros (_ & _ & _ & _ & [H | [[H _] | [H _]]]); discriminate. }
  destruct (format_cpu_only (Desc.format d)) eqn:EC.
  { destruct (format_cpu_only_cases _ EC) as (_ & _ & N19).
    rewrite negb_true_iff. split.
    - intros H. repeat split; try lia; auto.
    - intros (_ & _ & _ & _ & [H | [[_ H] | [H _]]]);
        [discriminate | exact H | contradiction]. }
  destruct (Z.eqb_spec (Desc.format d) kOMX_COLOR_FormatYUV420Planar)
    as [E19 | N19].
  { split.
    - intros H. repeat split; try lia; auto.
    - intros (_ & _ & _ & _ & [H | [[H _] | [_ H]]]);
        [discriminate | discriminate | exact H]. }
  split; [discriminate |].
  intros (_ & _ & _ & _ & [H | [[H _] | [H _]]]);
    [discriminate | discriminate | contradiction].
Qed.

(** An RGB_888 buffer without GPU usage is supported. *)
Lemma isSupported_iff_sample : isSupportedImpl rgb888_cpu_desc = true.
Proof.
  apply (proj2 (isSupported_iff rgb888_cpu_desc
                  ltac:(repeat split; cbv; congruence))).
  repeat split; try reflexivity.
  - apply no_reserved_bit_iff. reflexivity.
  - right. left. split; [reflexivity |].
    apply needGpuBuffer_iff. reflexivity.
Defined.

(** ** Import (C9) *)

(** C9 as stated fails twice.  A handle that declares a mapped size and a
    negative descriptor index makes import abort the process: it neither
    fails with an error code nor succeeds, although the clone succeeds, the
    handle is recognized and the mapping would succeed.  And a handle that
    declares no mapped size is imported with its (null) pointer as it
    was. *)
Lemma import_neither_fails_nor_succeeds :
  native_handle_clone_ok quiet_host (Buffer unbacked_cb) = true /\
  from (Some (Buffer unbacked_cb)) = Some unbacked_cb /\
  Cb.mmapedSize unbacked_cb <> 0 /\
  importBufferImpl quiet_host (Some (Buffer unbacked_cb)) = Aborted [] /\
  returned (importBufferImpl quiet_host (Some (Buffer unbacked_cb))) = None /\
  importBufferImpl quiet_host (Some (Buffer sizeless_cb))
  = Done tt (Some (Buffer sizeless_cb)) [] /\
  Cb.bufferPtr sizeless_cb = 0.
Proof. repeat split. discriminate. Qed.

(** C9 (as amended).  Import answers [BAD_BUFFER] to a null handle, to a
    clone that fails, and to a clone that is not a recognized buffer handle
    (which it closes and deletes).  For a recognized handle: with a mapped
    size of zero it succeeds and leaves the pointer as cloned; with a
    non-zero mapped size and a negative descriptor index it aborts the
    process; with a non-zero mapped size and a descriptor index that is not
    negative it maps the region, answers [NO_RESOURCES] if that fails (the
    clone closed and deleted, no handle handed out), and otherwise succeeds
    with the mapped pointer stored in the handle. *)
Theorem import_outcomes host nh :
  raw_wf nh ->
  match nh with
  | None => importBufferImpl host nh = Left BAD_BUFFER None []
  | Some obj =>
      (native_handle_clone_ok host obj = false ->
       importBufferImpl host nh = Left BAD_BUFFER None []) /\
      (native_handle_clone_ok host obj = true ->
       match from nh with
       | None =>
           importBufferImpl host nh
           = Left BAD_BUFFER None [EvNativeHandleClose; EvNativeHandleDelete]
       | Some cb =>
           (Cb.mmapedSize cb = 0 ->
            importBufferImpl host nh = Done tt (Some (Buffer cb)) []) /\
           (Cb.mmapedSize cb <> 0 -> Cb.bufferFdIndex cb < 0 ->
            importBufferImpl host nh = Aborted []) /\
           (Cb.mmapedSize cb <> 0 -> 0 <= Cb.bufferFdIndex cb ->
            let fd := nth (Z.to_nat (Cb.bufferFdIndex cb)) (Cb.fds cb) 0 in
            let m := memoryMap host (Cb.bufferPtr cb) (Cb.mmapedSize cb) fd
                               (Cb.mmapedOffset cb) in
            let ev := EvMemoryMap (Cb.bufferPtr cb) (Cb.mmapedSize cb) fd
                                  (Cb.mmapedOffset cb) in
            (fst m <> 0 ->
             importBufferImpl host nh
             = Left NO_RESOURCES None
                    [ev; EvNativeHandleClose; EvNativeHandleDelete]) /\
            (fst m = 0 ->
             importBufferImpl host nh
             = Done tt (Some (Buffer (Cb.setBufferPtr (snd m) cb))) [ev]))
       end)
  end.
Proof.
  intros Hwf.
  destruct nh as [obj |]; [| reflexivity].
  unfold importBufferImpl.
  split; intros Hc; rewrite Hc; cbn [negb]; [reflexivity |].
  destruct obj as [f | cb]; cbn [from]; [reflexivity |].
  pose proof (Cb.wf_mmapedSize cb Hwf) as Hm. unfold in_u32 in Hm.
  split; [intros E; rewrite E; reflexivity |].
  split.
  - intros N Hi.
    destruct (Z.gtb_spec (Cb.mmapedSize cb) 0); [| lia].
    destruct (Z.ltb_spec (Cb.bufferFdIndex cb) 0); [reflexivity | lia].
  - intros N Hi.
    destruct (Z.gtb_spec (Cb.mmapedSize cb) 0); [| lia].
    destruct (Z.ltb_spec (Cb.bufferFdIndex cb) 0); [lia |].
    destruct (memoryMap host _ _ _ _) as [res p]. cbn [fst snd].
    split; intros Hr.
    + apply Z.eqb_neq in Hr. rewrite Hr. reflexivity.
    + rewrite Hr. reflexivity.
Qed.

(** The sample buffer is imported with the pointer the mapping returned. *)
Lemma import_outcomes_sample :
  importBufferImpl quiet_host (Some (Buffer sample_cb))
  = Done tt (Some (Buffer (Cb.setBufferPtr 1048576 sample_cb)))
         [EvMemoryMap 65536 16384 5 0].
Proof.
  pose proof (import_outcomes quiet_host (Some (Buffer sample_cb))
                sample_cb_wf) as (_ & H).
  destruct (H eq_refl) as (_ & _ & Hmap).
  exact (proj2 (Hmap ltac:(discriminate) ltac:(discriminate)) eq_refl).
Defined.

(* ===================================================================== *)
(** * Further properties of the mapper *)
(* ===================================================================== *)

(** ** [align] and [ones] *)

Lemma pow2_lt_64 k : 0 <= k < 64 -> 0 < 2 ^ k < 2 ^ 64.
Proof.
  intros Hk. split; [apply Z.pow_pos_nonneg; lia |].
  apply Z.pow_lt_mono_r; lia.
Qed.

(** X1.  For an alignment that is a power of two and a value that leaves
    room for it in [size_t], [align] rounds up to the next multiple: the
    result is a multiple of the alignment, not below the value and less
    than one alignment above it. *)
Theorem align_rounds_up v k :
  0 <= k < 64 -> 0 <= v -> v + 2 ^ k <= 2 ^ 64 ->
  align v (2 ^ k) = 2 ^ k * ((v + 2 ^ k - 1) / 2 ^ k) /\
  v <= align v (2 ^ k) < v + 2 ^ k /\
  align v (2 ^ k) mod 2 ^ k = 0.
Proof.
  intros Hk Hv Hroom.
  pose proof (pow2_lt_64 k Hk) as Ha.
  assert (E : align v (2 ^ k) = 2 ^ k * ((v + 2 ^ k - 1) / 2 ^ k)).
  { unfold align, size_sub, size_add, size_t, wrap.
    rewrite Zminus_mod_idemp_l.
    rewrite (Z.mod_small (v + 2 ^ k - 1)) by lia.
    rewrite (Z.mod_small (2 ^ k - 1)) by lia.
    rewrite land_size_not by lia.
    replace (2 ^ k - 1) with (Z.ones k) by (rewrite Z.ones_equiv; lia).
    rewrite <- Z.ldiff_land, Z.ldiff_ones_r by lia.
    rewrite Z.shiftl_mul_pow2, Z.shiftr_div_pow2 by lia.
    lia. }
  rewrite E.
  pose proof (Z.div_mod (v + 2 ^ k - 1) (2 ^ k) ltac:(lia)) as Hd.
  pose proof (Z.mod_pos_bound (v + 2 ^ k - 1) (2 ^ k) ltac:(lia)) as Hm.
  split; [reflexivity |]. split; [lia |].
  rewrite Z.mul_comm. apply Z.mod_mul. lia.
Qed.

(** A row of 1000 bytes aligned to 64. *)
Lemma align_rounds_up_sample : align 1000 64 = 1024.
Proof.
  destruct (align_rounds_up 1000 6 ltac:(lia) ltac:(lia) ltac:(cbv; congruence))
    as (E & _).
  exact E.
Defined.

(** X2.  [ones(from, to)] has exactly the bits [from] to [to] set, for a
    range inside a 64-bit word that is not the whole word. *)
Theorem ones_bits from to n :
  0 <= from <= to -> to <= 63 -> to - from < 63 -> 0 <= n ->
  Z.testbit (ones from to) n = (from <=? n) && (n <=? to).
Proof.
  intros Hft Hto Hw Hn. unfold ones, one64, u64, wrap.
  rewrite Z.shiftl_1_l.
  assert (Hp : 0 < 2 ^ (to - from + 1) < 2 ^ 64)
    by (apply pow2_lt_64; lia).
  rewrite (Z.mod_small (2 ^ (to - from + 1))) by lia.
  rewrite (Z.mod_small (2 ^ (to - from + 1) - 1)) by lia.
  replace (2 ^ (to - from + 1) - 1) with (Z.ones (to - from + 1))
    by (rewrite Z.ones_equiv; lia).
  assert (Hs : 0 <= Z.shiftl (Z.ones (to - from + 1)) from < 2 ^ 64).
  { rewrite Z.shiftl_mul_pow2, Z.ones_equiv by lia.
    assert (2 ^ (to - from + 1) * 2 ^ from = 2 ^ (to + 1))
      by (rewrite <- Z.pow_add_r by lia; f_equal; lia).
    assert (2 ^ (to + 1) <= 2 ^ 64) by (apply Z.pow_le_mono_r; lia).
    assert (0 < 2 ^ from) by (apply Z.pow_pos_nonneg; lia).
    nia. }
  rewrite Z.mod_small by exact Hs.
  rewrite Z.shiftl_spec by exact Hn.
  destruct (Z.leb_spec from n) as [Hle | Hgt]; cbn [andb].
  - rewrite Z.testbit_ones_nonneg by lia.
    destruct (Z.ltb_spec (n - from) (to - from + 1)),
      (Z.leb_spec n to); (reflexivity || lia).
  - apply Z.testbit_neg_r. lia.
Qed.

(** Bit 26 lies in the reserved range 25 to 27, bit 28 does not. *)
Lemma ones_bits_sample :
  Z.testbit (ones 25 27) 26 = true /\ Z.testbit (ones 25 27) 28 = false.
Proof.
  split.
  - exact (ones_bits 25 27 26 ltac:(lia) ltac:(lia) ltac:(lia) ltac:(lia)).
  - exact (ones_bits 25 27 28 ltac:(lia) ltac:(lia) ltac:(lia) ltac:(lia)).
Defined.

(** ** Traces *)

Lemma prepend_nil {S A} (r : result S A) : prepend [] r = r.
Proof. destruct r; reflexivity. Qed.

Lemma prepend_app {S A} (t1 t2 : trace) (r : result S A) :
  prepend t1 (prepend t2 r) = prepend (t1 ++ t2) r.
Proof. destruct r; cbn; rewrite app_assoc; reflexivity. Qed.

Lemma appends_pure {A} (a : A) : appends (pure a).
Proof. intros cb tr. cbn. rewrite app_nil_r. reflexivity. Qed.

Lemma appends_this : appends this.
Proof. intros cb tr. cbn. rewrite app_nil_r. reflexivity. Qed.

Lemma appends_store f : appends (store f).
Proof. intros cb tr. cbn. rewrite app_nil_r. reflexivity. Qed.

Lemma appends_call ev : appends (call ev).
Proof. intros cb tr. reflexivity. Qed.

Lemma appends_CRASH {A} : appends (@CRASH A).
Proof. intros cb tr. cbn. rewrite app_nil_r. reflexivity. Qed.

Lemma appends_RETURN_ERROR {A} e : appends (@RETURN_ERROR A e).
Proof. intros cb tr. cbn. rewrite app_nil_r. reflexivity. Qed.

Lemma appends_bind {A B} (c : M A) (k : A -> M B) :
  appends c -> (forall a, appends (k a)) -> appends (bind c k).
Proof.
  intros Hc Hk cb tr. unfold bind.
  rewrite (Hc cb tr).
  destruct (c cb []) as [a cb' t | e cb' t | t]; cbn; try reflexivity.
  rewrite (Hk a cb' (tr ++ t)), (Hk a cb' t), prepend_app. reflexivity.
Qed.

#[local] Hint Resolve appends_pure appends_this appends_store appends_call
  appends_CRASH appends_RETURN_ERROR : frames.

Ltac appends_step :=
  match goal with
  | |- appends (bind _ _) => apply appends_bind; [| intros ?]
  | |- appends (if ?b then _ else _) => destruct b
  | |- appends (let (_, _) := ?p in _) => destruct p
  | |- appends (match ?x with _ => _ end) => destruct x
  | |- appends _ => solve [auto with frames]
  end.

Lemma appends_waitFenceFd host fd : appends (waitFenceFd host fd).
Proof. unfold waitFenceFd. repeat appends_step. Qed.

Lemma appends_waitHidlFence host f : appends (waitHidlFence host f).
Proof.
  unfold waitHidlFence. destruct f as [nh |]; [| auto with frames].
  repeat appends_step. apply appends_waitFenceFd.
Qed.

Lemma appends_lockHostImpl host u r bits : appends (lockHostImpl host u r bits).
Proof. unfold lockHostImpl. repeat appends_step. Qed.

Lemma appends_unlockHostImpl host bits : appends (unlockHostImpl host bits).
Proof. unfold unlockHostImpl. repeat appends_step. Qed.

Lemma waitFenceFd_only_waits host fd cb :
  forallb is_sync_wait (calls (waitFenceFd host fd cb [])) = true.
Proof.
  unfold waitFenceFd, bind, call, pure.
  destruct (sync_wait host fd 5000) as [r e].
  destruct (r <? 0); [| reflexivity].
  destruct (e =? ETIME); [| reflexivity].
  destruct (sync_wait host fd (-1)) as [r' e'].
  destruct (r' <? 0); reflexivity.
Qed.

Lemma waitHidlFence_only_waits host f cb :
  forallb is_sync_wait (calls (waitHidlFence host f cb [])) = true.
Proof.
  unfold waitHidlFence. destruct f as [nh |]; [| reflexivity].
  destruct (numFds nh >? 1); [reflexivity |].
  destruct (negb (numInts nh =? 0)); [reflexivity |].
  apply waitFenceFd_only_waits.
Qed.

(** ** The shape of a lock past its checks *)

(** Past the checks on the handle, [lock] is the fence wait, then the host
    step if there is a host handle, then [setLocked]. *)
Lemma lockBody_past_checks host u r f cb :
  lockable cb u ->
  lockBody host u r f cb [] =
  match waitHidlFence host f cb [] with
  | Done z _ ws =>
      if negb (z =? 0) then Left BAD_VALUE cb ws
      else
        let cu := checkedUsageOf u (Cb.usage cb) in
        let out := mkLockOut (Cb.bufferPtr cb) (i32 (Cb.bytesPerPixel cb))
                     (i32 (u32 (Cb.bytesPerPixel cb * Cb.stride cb))) in
        if negb (Cb.hostHandle cb =? 0) then
          match lockHostImpl host cu r (Cb.bufferPtr cb) cb [] with
          | Done _ _ hs => Done out (lockedAs cu r cb) (ws ++ hs)
          | Left e _ hs => Left e cb (ws ++ hs)
          | Aborted hs => Aborted (ws ++ hs)
          end
        else Done out (lockedAs cu r cb) ws
  | Left e _ ws => Left e cb ws
  | Aborted ws => Aborted ws
  end.
Proof.
  intros (Hl & Hcu & Hs & Hp).
  apply Z.eqb_neq in Hcu, Hs, Hp.
  unfold lockBody, bind, this, RETURN_ERROR. cbv zeta.
  rewrite Hl, Hcu, Hs, Hp. cbn [Z.eqb negb].
  destruct (waitHidlFence_returns host f cb []) as (z & ws & ->).
  destruct (negb (z =? 0)); [reflexivity |].
  destruct (negb (Cb.hostHandle cb =? 0)).
  - rewrite (appends_lockHostImpl host _ r (Cb.bufferPtr cb) cb ws).
    pose proof (frames_lockHostImpl host (checkedUsageOf u (Cb.usage cb)) r
                  (Cb.bufferPtr cb) cb []) as Hf.
    destruct (lockHostImpl host (checkedUsageOf u (Cb.usage cb)) r
                (Cb.bufferPtr cb) cb [])
      as [[] cb' hs | e cb' hs | hs]; cbn; try subst cb'; reflexivity.
  - reflexivity.
Qed.

Lemma lockYCbCrBody_past_checks host u r f cb :
  lockable cb u ->
  lockYCbCrBody host u r f cb [] =
  match waitHidlFence host f cb [] with
  | Done z _ ws =>
      if negb (z =? 0) then Left BAD_VALUE cb ws
      else
        match ycbcrPlaneLayout (Cb.format cb) (Cb.width cb) (Cb.height cb)
        with
        | None => Left BAD_BUFFER cb ws
        | Some l =>
            let cu := checkedUsageOf u (Cb.usage cb) in
            let out := mkYCbCrLayout3 (Cb.bufferPtr cb)
                         (u64 (Cb.bufferPtr cb + uOffset l))
                         (u64 (Cb.bufferPtr cb + vOffset l))
                         (u32 (yStride l)) (u32 (cStride l))
                         (u32 (cStep l)) in
            if negb (Cb.hostHandle cb =? 0) then
              match lockHostImpl host cu r (Cb.bufferPtr cb) cb [] with
              | Done _ _ hs => Done out (lockedAs cu r cb) (ws ++ hs)
              | Left e _ hs => Left e cb (ws ++ hs)
              | Aborted hs => Aborted (ws ++ hs)
              end
            else Done out (lockedAs cu r cb) ws
        end
  | Left e _ ws => Left e cb ws
  | Aborted ws => Aborted ws
  end.
Proof.
  intros (Hl & Hcu & Hs & Hp).
  apply Z.eqb_neq in Hcu, Hs, Hp.
  unfold lockYCbCrBody, bind, this, RETURN_ERROR. cbv zeta.
  rewrite Hl, Hcu, Hs, Hp. cbn [Z.eqb negb].
  destruct (waitHidlFence_returns host f cb []) as (z & ws & ->).
  destruct (negb (z =? 0)); [reflexivity |].
  destruct (ycbcrPlaneLayout (Cb.format cb) (Cb.width cb) (Cb.height cb))
    as [l |]; [| reflexivity].
  destruct (negb (Cb.hostHandle cb =? 0)).
  - rewrite (appends_lockHostImpl host _ r (Cb.bufferPtr cb) cb ws).
    pose proof (frames_lockHostImpl host (checkedUsageOf u (Cb.usage cb)) r
                  (Cb.bufferPtr cb) cb []) as Hf.
    destruct (lockHostImpl host (checkedUsageOf u (Cb.usage cb)) r
                (Cb.bufferPtr cb) cb [])
      as [[] cb' hs | e cb' hs | hs]; cbn; try subst cb'; reflexivity.
  - reflexivity.
Qed.

(** Past its checks, [unlock] is the host step if there is a host handle,
    then the clearing of the lock state. *)
Lemma unlockBody_past_checks host cb :
  Cb.lockedUsage cb <> 0 -> Cb.bufferSize cb <> 0 -> Cb.bufferPtr cb <> 0 ->
  unlockBody host cb [] =
  if negb (Cb.hostHandle cb =? 0) then
    match unlockHostImpl host (Cb.bufferPtr cb) cb [] with
    | Done _ _ hs => Done tt (Cb.setLockState 0 0 0 0 0 cb) hs
    | Left e _ hs => Left e cb hs
    | Aborted hs => Aborted hs
    end
  else Done tt (Cb.setLockState 0 0 0 0 0 cb) [].
Proof.
  intros Hl Hs Hp. apply Z.eqb_neq in Hl, Hs, Hp.
  unfold unlockBody, bind, this, RETURN_ERROR. cbv zeta.
  rewrite Hl, Hs, Hp.
  destruct (negb (Cb.hostHandle cb =? 0)); [| reflexivity].
  pose proof (frames_unlockHostImpl host (Cb.bufferPtr cb) cb []) as Hf.
  destruct (unlockHostImpl host (Cb.bufferPtr cb) cb [])
    as [[] cb' hs | e cb' hs | hs]; cbn; try subst cb'; reflexivity.
Qed.

(** ** The host step of a lock *)

(** The cache flush comes first, and a flush that fails ends the step. *)
Lemma lockHostImpl_flush host cu r bits cb :
  let sw := negb (Z.land cu BufferUsage.CPU_READ_MASK =? 0) in
  let flush := EvCacheFlush (Cb.hostHandle cb) sw in
  (exists rest, calls (lockHostImpl host cu r bits cb []) = flush :: rest) /\
  (rcColorBufferCacheFlush host (Cb.hostHandle cb) sw < 0 ->
   lockHostImpl host cu r bits cb [] = Left NO_RESOURCES cb [flush]) /\
  (0 <= rcColorBufferCacheFlush host (Cb.hostHandle cb) sw ->
   match lockHostImpl host cu r bits cb [] with
   | Left _ _ _ => False
   | _ => True
   end) /\
  (0 <= rcColorBufferCacheFlush host (Cb.hostHandle cb) sw -> sw = false ->
   lockHostImpl host cu r bits cb [] = Done tt cb [flush]).
Proof.
  intros sw flush. subst sw flush.
  unfold lockHostImpl, bind, this, call, pure, CRASH, RETURN_ERROR.
  cbn [app].
  destruct (Z.ltb_spec
              (rcColorBufferCacheFlush host (Cb.hostHandle cb)
                 (negb (Z.land cu BufferUsage.CPU_READ_MASK =? 0))) 0)
    as [Hneg | Hpos].
  - split; [cbn; eauto |]. repeat split; intros; (reflexivity || lia).
  - split; [split_ifs; cbn; eauto |].
    split; [intros; lia |].
    split; [intros _; split_ifs; exact I |].
    intros _ ->. reflexivity.
Qed.

(** It aborts only in the [default:] of a format switch. *)
Lemma lockHostImpl_abort host cu r bits cb :
  match lockHostImpl host cu r bits cb [] with
  | Aborted _ =>
      gralloc_is_yuv_format host (Cb.format cb) = true /\
      Cb.format cb <> PixelFormat.YV12 /\
      Cb.format cb <> PixelFormat.YCBCR_420_888
  | _ => True
  end.
Proof.
  unfold lockHostImpl, bind, this, call, pure, CRASH, RETURN_ERROR.
  destruct (_ <? 0); [exact I |].
  destruct (negb _); [| exact I].
  destruct (gralloc_is_yuv_format host (Cb.format cb));
    [| destruct (hasReadColorBufferDma host); exact I].
  destruct (hasYUVCache host);
    (test_eq (Cb.format cb) PixelFormat.YV12; [exact I |];
     test_eq (Cb.format cb) PixelFormat.YCBCR_420_888; [exact I |];
     repeat split; assumption).
Qed.

(** ** Waiting on the fence *)

(** X3.  [waitFenceFd] waits once with the warning timeout and, only if
    that wait timed out, once more without a timeout.  It reports success
    when the first wait succeeds, and also when the first wait times out
    and the second succeeds; a result other than 0 is the [errno] of a wait
    that failed. *)
Theorem fence_wait_outcome host fd cb :
  exists z ws,
    waitFenceFd host fd cb [] = Done z cb ws /\
    (ws = [EvSyncWait fd 5000] \/
     ws = [EvSyncWait fd 5000; EvSyncWait fd (-1)] /\
     fst (sync_wait host fd 5000) < 0 /\
     snd (sync_wait host fd 5000) = ETIME) /\
    (0 <= fst (sync_wait host fd 5000) ->
     z = 0 /\ ws = [EvSyncWait fd 5000]) /\
    (fst (sync_wait host fd 5000) < 0 ->
     snd (sync_wait host fd 5000) = ETIME ->
     0 <= fst (sync_wait host fd (-1)) -> z = 0) /\
    (z <> 0 ->
     exists t, In (EvSyncWait fd t) ws /\
               fst (sync_wait host fd t) < 0 /\
               snd (sync_wait host fd t) = z).
Proof.
  unfold waitFenceFd, bind, call, pure. cbn [app].
  destruct (sync_wait host fd 5000) as [r1 e1] eqn:E1.
  destruct (sync_wait host fd (-1)) as [r2 e2] eqn:E2.
  cbn [fst snd].
  destruct (Z.ltb_spec r1 0) as [H1 | H1].
  - destruct (Z.eqb_spec e1 ETIME) as [Et | Et].
    + destruct (Z.ltb_spec r2 0) as [H2 | H2].
      * exists e2, [EvSyncWait fd 5000; EvSyncWait fd (-1)].
        split; [reflexivity |]. split; [right; auto |].
        split; [intros; lia |]. split; [intros; lia |].
        intros _. exists (-1). rewrite E2. cbn. auto.
      * exists 0, [EvSyncWait fd 5000; EvSyncWait fd (-1)].
        split; [reflexivity |]. split; [right; auto |].
        split; [intros; lia |]. split; [reflexivity |].
        intros; contradiction.
    + exists e1, [EvSyncWait fd 5000].
      split; [reflexivity |]. split; [left; reflexivity |].
      split; [intros; lia |]. split; [intros; contradiction |].
      intros _. exists 5000. rewrite E1. cbn. auto.
  - exists 0, [EvSyncWait fd 5000].
    split; [reflexivity |]. split; [left; reflexivity |].
    split; [auto |]. split; [intros; lia |].
    intros; contradiction.
Qed.

(** X4.  On a handle that passes the checks, a fence wait that reports
    anything but success makes lock and lockYCbCr return [BAD_VALUE]: the
    handle is left as it was, and the only calls made are the waits on the
    fence, none to the host. *)
Theorem lock_fence_failure host cb u r f z :
  lockable cb u ->
  value_of (waitHidlFence host f cb []) = Some z -> z <> 0 ->
  lockImpl host (Some (Buffer cb)) u r f
  = Left BAD_VALUE (Some (Buffer cb)) (calls (waitHidlFence host f cb [])) /\
  lockYCbCrImpl host (Some (Buffer cb)) u r f
  = Left BAD_VALUE (Some (Buffer cb)) (calls (waitHidlFence host f cb [])) /\
  forallb is_sync_wait (calls (waitHidlFence host f cb [])) = true.
Proof.
  intros Hok Hz Hnz.
  unfold lockImpl, lockYCbCrImpl, on_handle. cbn [from].
  rewrite (lockBody_past_checks host u r f cb Hok).
  rewrite (lockYCbCrBody_past_checks host u r f cb Hok).
  pose proof (waitHidlFence_only_waits host f cb) as Hw.
  destruct (waitHidlFence_returns host f cb []) as (z' & ws & E).
  rewrite E in *. cbn in Hz. injection Hz as ->.
  apply Z.eqb_neq in Hnz. rewrite Hnz. cbn. auto.
Qed.

(** A lock of the sample buffer with a fence whose wait fails with
    [EBADF]. *)
Lemma lock_fence_failure_sample :
  lockImpl fenceless_host (Some (Buffer sample_cb)) 3 sample_region
           one_fd_fence
  = Left BAD_VALUE (Some (Buffer sample_cb)) [EvSyncWait 10 5000].
Proof.
  refine (proj1 (lock_fence_failure fenceless_host sample_cb 3 sample_region
                   one_fd_fence 9 _ eq_refl _)).
  - repeat split; vm_compute; discriminate.
  - discriminate.
Defined.

Lemma lockBody_checks_fail host u r f cb :
  ~ lockable cb u ->
  (exists e, lockBody host u r f cb [] = Left e cb []) /\
  (exists e, lockYCbCrBody host u r f cb [] = Left e cb []).
Proof.
  intros Hno. unfold lockBody, lockYCbCrBody, bind, this, RETURN_ERROR.
  cbv zeta.
  test_eq (Cb.lockedUsage cb) 0; [| eauto].
  test_eq (checkedUsageOf u (Cb.usage cb)) 0; [eauto |].
  test_eq (Cb.bufferSize cb) 0; [eauto |].
  test_eq (Cb.bufferPtr cb) 0; [eauto |].
  exfalso. apply Hno. repeat split; assumption.
Qed.

Lemma lockable_dec cb u : lockable cb u \/ ~ lockable cb u.
Proof.
  unfold lockable.
  destruct (Z.eq_dec (Cb.lockedUsage cb) 0),
    (Z.eq_dec (checkedUsageOf u (Cb.usage cb)) 0),
    (Z.eq_dec (Cb.bufferSize cb) 0),
    (Z.eq_dec (Cb.bufferPtr cb) 0); tauto.
Qed.

(** X5.  Whatever the arguments, the calls that lock and lockYCbCr make
    are first the waits on the fence and then the calls to the host: no
    call to the host comes before a wait. *)
Theorem lock_waits_before_host host raw u r f :
  (exists ws hs,
      calls (lockImpl host raw u r f) = ws ++ hs /\
      forallb is_sync_wait ws = true /\ existsb is_sync_wait hs = false) /\
  (exists ws hs,
      calls (lockYCbCrImpl host raw u r f) = ws ++ hs /\
      forallb is_sync_wait ws = true /\ existsb is_sync_wait hs = false).
Proof.
  unfold lockImpl, lockYCbCrImpl, on_handle.
  destruct (from raw) as [cb |]; [| split; exists [], []; auto].
  destruct (lockable_dec cb u) as [Hok | Hno].
  2:{ destruct (lockBody_checks_fail host u r f cb Hno) as [[e ->] [e' ->]].
      split; exists [], []; auto. }
  rewrite (lockBody_past_checks host u r f cb Hok).
  rewrite (lockYCbCrBody_past_checks host u r f cb Hok).
  pose proof (waitHidlFence_only_waits host f cb) as Hw.
  pose proof (lockHostImpl_no_wait host (checkedUsageOf u (Cb.usage cb)) r
                (Cb.bufferPtr cb) cb) as Hh.
  destruct (waitHidlFence_returns host f cb []) as (z & ws & E).
  rewrite E in *. cbn [calls] in Hw.
  destruct (negb (z =? 0)); [split; exists ws, []; cbn; rewrite app_nil_r; auto |].
  cbv zeta.
  destruct (ycbcrPlaneLayout (Cb.format cb) (Cb.width cb) (Cb.height cb));
    (destruct (negb (Cb.hostHandle cb =? 0));
     [destruct (lockHostImpl host (checkedUsageOf u (Cb.usage cb)) r
                   (Cb.bufferPtr cb) cb []) as [[] cb' hs | e cb' hs | hs];
      cbn in *; split; eauto; exists ws, []; rewrite app_nil_r; auto
     | cbn; split; exists ws, []; rewrite app_nil_r; auto]).
Qed.

(** X6.  A buffer without a host handle is locked and unlocked without a
    call to the host: lock and lockYCbCr only wait on the fence, unlock
    calls nothing, and none of them aborts. *)
Theorem guest_only_buffer_stays_local host cb u r f :
  Cb.hostHandle cb = 0 ->
  forallb is_sync_wait (calls (lockImpl host (Some (Buffer cb)) u r f)) = true /\
  forallb is_sync_wait (calls (lockYCbCrImpl host (Some (Buffer cb)) u r f))
  = true /\
  calls (unlockImpl host (Some (Buffer cb))) = [] /\
  returned (lockImpl host (Some (Buffer cb)) u r f) <> None /\
  returned (lockYCbCrImpl host (Some (Buffer cb)) u r f) <> None /\
  returned (unlockImpl host (Some (Buffer cb))) <> None.
Proof.
  intros Hh.
  assert (HU : calls (unlockImpl host (Some (Buffer cb))) = [] /\
               returned (unlockImpl host (Some (Buffer cb))) <> None).
  { unfold unlockImpl, on_handle. cbn [from].
    unfold unlockBody, bind, this, RETURN_ERROR. cbv zeta.
    rewrite Hh. cbn [Z.eqb negb].
    repeat (match goal with
            | |- context [if ?a =? ?b then _ else _] =>
                destruct (a =? b)
            end; [cbn; split; [reflexivity | discriminate] |]).
    cbn. split; [reflexivity | discriminate]. }
  unfold lockImpl, lockYCbCrImpl, on_handle. cbn [from].
  destruct (lockable_dec cb u) as [Hok | Hno].
  2:{ destruct (lockBody_checks_fail host u r f cb Hno) as [[e ->] [e' ->]].
      cbn. repeat split; try discriminate; apply HU. }
  rewrite (lockBody_past_checks host u r f cb Hok).
  rewrite (lockYCbCrBody_past_checks host u r f cb Hok).
  pose proof (waitHidlFence_only_waits host f cb) as Hw.
  destruct (waitHidlFence_returns host f cb []) as (z & ws & E).
  rewrite E in *. cbn [calls] in Hw. rewrite Hh. cbn [Z.eqb negb]. cbv zeta.
  destruct (negb (z =? 0));
    [| destruct (ycbcrPlaneLayout (Cb.format cb) (Cb.width cb)
                   (Cb.height cb))];
    cbn; repeat split; try discriminate; try assumption; apply HU.
Qed.

(** The guest-only sample buffer, locked for writing with a fence. *)
Lemma guest_only_buffer_stays_local_sample :
  forallb is_sync_wait
    (calls (lockImpl quiet_host (Some (Buffer guest_only_cb)) 48
                     sample_region one_fd_fence)) = true.
Proof.
  exact (proj1 (guest_only_buffer_stays_local quiet_host guest_only_cb 48
                  sample_region one_fd_fence eq_refl)).
Defined.

(** ** The host step seen from [lock] *)

(** X7.  On a handle with a host handle that passes the checks and whose
    fence wait succeeds, lock returns [NO_RESOURCES] exactly when the
    host's cache flush fails; the handle is then left unlocked as it was
    and the flush is the last call made. *)
Theorem lock_no_resources_iff host cb u r f :
  lockable cb u ->
  value_of (waitHidlFence host f cb []) = Some 0 ->
  Cb.hostHandle cb <> 0 ->
  let cu := checkedUsageOf u (Cb.usage cb) in
  let sw := negb (Z.land cu BufferUsage.CPU_READ_MASK =? 0) in
  let failed := rcColorBufferCacheFlush host (Cb.hostHandle cb) sw < 0 in
  (returned (lockImpl host (Some (Buffer cb)) u r f) = Some NO_RESOURCES
   <-> failed) /\
  (failed ->
   lockImpl host (Some (Buffer cb)) u r f
   = Left NO_RESOURCES (Some (Buffer cb))
          (calls (waitHidlFence host f cb [])
           ++ [EvCacheFlush (Cb.hostHandle cb) sw])).
Proof.
  intros Hok Hz Hh cu sw failed. subst failed.
  unfold lockImpl, on_handle. cbn [from].
  rewrite (lockBody_past_checks host u r f cb Hok).
  destruct (waitHidlFence_returns host f cb []) as (z & ws & E).
  rewrite E in *. cbn in Hz. injection Hz as ->. cbn [Z.eqb negb calls].
  apply Z.eqb_neq in Hh. rewrite Hh. cbn [negb]. cbv zeta.
  fold cu.
  destruct (lockHostImpl_flush host cu r (Cb.bufferPtr cb) cb)
    as (_ & Hfail & Hnofail & _).
  fold sw in Hfail, Hnofail.
  destruct (Z.lt_ge_cases (rcColorBufferCacheFlush host (Cb.hostHandle cb) sw) 0)
    as [Hneg | Hpos].
  - rewrite (Hfail Hneg). cbn. split; [tauto | reflexivity].
  - specialize (Hnofail Hpos).
    split; [| intros; lia].
    destruct (lockHostImpl host cu r (Cb.bufferPtr cb) cb [])
      as [[] cb' hs | e cb' hs | hs]; cbn;
      (split; [discriminate || contradiction | intros; lia]).
Qed.

(** On a host whose flush fails, the lock of the sample buffer fails. *)
Lemma lock_no_resources_iff_sample :
  lockImpl failing_host (Some (Buffer sample_cb)) 3 sample_region None
  = Left NO_RESOURCES (Some (Buffer sample_cb)) [EvCacheFlush 7 true].
Proof.
  refine (proj2 (lock_no_resources_iff failing_host sample_cb 3 sample_region
                   None _ eq_refl _) _).
  - repeat split; vm_compute; discriminate.
  - discriminate.
  - reflexivity.
Defined.

(** X8.  A lock that asks for no CPU read access reads nothing back from
    the host: with the checks passed, the fence signalled and the flush
    done, the lock is taken and the flush is the only call to the host. *)
Theorem write_only_lock_reads_nothing host cb u r f :
  lockable cb u ->
  value_of (waitHidlFence host f cb []) = Some 0 ->
  Cb.hostHandle cb <> 0 ->
  let cu := checkedUsageOf u (Cb.usage cb) in
  Z.land cu BufferUsage.CPU_READ_MASK = 0 ->
  0 <= rcColorBufferCacheFlush host (Cb.hostHandle cb) false ->
  returned (lockImpl host (Some (Buffer cb)) u r f) = Some NONE /\
  handle_after (lockImpl host (Some (Buffer cb)) u r f)
  = Some (Buffer (lockedAs cu r cb)) /\
  calls (lockImpl host (Some (Buffer cb)) u r f)
  = calls (waitHidlFence host f cb [])
    ++ [EvCacheFlush (Cb.hostHandle cb) false].
Proof.
  intros Hok Hz Hh cu Hro Hflush.
  unfold lockImpl, on_handle. cbn [from].
  rewrite (lockBody_past_checks host u r f cb Hok).
  destruct (waitHidlFence_returns host f cb []) as (z & ws & E).
  rewrite E in *. cbn in Hz. injection Hz as ->. cbn [Z.eqb negb calls].
  apply Z.eqb_neq in Hh. rewrite Hh. cbn [negb]. cbv zeta. fold cu.
  destruct (lockHostImpl_flush host cu r (Cb.bufferPtr cb) cb)
    as (_ & _ & _ & Hwo).
  rewrite Hro in Hwo. cbn [Z.eqb negb] in Hwo.
  rewrite (Hwo Hflush eq_refl). cbn. auto.
Qed.

(** The sample buffer locked for writing only. *)
Lemma write_only_lock_reads_nothing_sample :
  calls (lockImpl quiet_host (Some (Buffer sample_cb)) 48 sample_region None)
  = [EvCacheFlush 7 false].
Proof.
  refine (proj2 (proj2 (write_only_lock_reads_nothing quiet_host sample_cb 48
                          sample_region None _ eq_refl _ eq_refl _))).
  - repeat split; vm_compute; discriminate.
  - discriminate.
  - vm_compute. discriminate.
Defined.

(** X9.  A lockYCbCr on a buffer whose format has no plane layout returns
    [BAD_BUFFER]: with the checks passed and the fence signalled, the
    handle is left unlocked as it was and no call to the host is made. *)
Theorem lockYCbCr_unknown_format host cb u r f :
  lockable cb u ->
  value_of (waitHidlFence host f cb []) = Some 0 ->
  Cb.format cb <> PixelFormat.YCRCB_420_SP ->
  Cb.format cb <> PixelFormat.YV12 ->
  Cb.format cb <> PixelFormat.YCBCR_420_888 ->
  Cb.format cb <> PixelFormat.YCBCR_P010 ->
  lockYCbCrImpl host (Some (Buffer cb)) u r f
  = Left BAD_BUFFER (Some (Buffer cb)) (calls (waitHidlFence host f cb [])) /\
  forallb is_sync_wait (calls (waitHidlFence host f cb [])) = true.
Proof.
  intros Hok Hz N1 N2 N3 N4.
  unfold lockYCbCrImpl, on_handle. cbn [from].
  rewrite (lockYCbCrBody_past_checks host u r f cb Hok).
  pose proof (waitHidlFence_only_waits host f cb) as Hw.
  destruct (waitHidlFence_returns host f cb []) as (z & ws & E).
  rewrite E in *. cbn in Hz. injection Hz as ->. cbn [Z.eqb negb calls].
  unfold ycbcrPlaneLayout.
  apply Z.eqb_neq in N1, N2, N3, N4. rewrite N1, N2, N3, N4.
  split; [reflexivity | exact Hw].
Qed.

(** The RGBA sample buffer has no planes. *)
Lemma lockYCbCr_unknown_format_sample :
  lockYCbCrImpl quiet_host (Some (Buffer sample_cb)) 3 sample_region None
  = Left BAD_BUFFER (Some (Buffer sample_cb)) [].
Proof.
  refine (proj1 (lockYCbCr_unknown_format quiet_host sample_cb 3
                   sample_region None _ eq_refl _ _ _ _));
    try discriminate.
  repeat split; vm_compute; discriminate.
Defined.

(** ** The push to the host in [unlock] *)

Lemma unlockHostImpl_calls host bits cb :
  let phys := getMmapedPhysAddr host (Cb.mmapedOffset cb) in
  let rgbSize :=
    u32 (Cb.width cb * Cb.height cb
         * Z.shiftr (glUtilsPixelBitSize host (Cb.glFormat cb) (Cb.glType cb))
                    3) in
  match unlockHostImpl host bits cb [] with
  | Done _ _ tr =>
      if negb (Z.land (Cb.lockedUsage cb) BufferUsage.CPU_WRITE_MASK =? 0) then
        exists size,
          tr = [EvBindDmaDirectly bits phys;
                EvUpdateColorBufferDMA (Cb.hostHandle cb) (Cb.width cb)
                  (Cb.height cb) (Cb.glFormat cb) (Cb.glType cb) size] /\
          (gralloc_is_yuv_format host (Cb.format cb) = false ->
           size = rgbSize)
      else tr = []
  | Left _ _ _ => False
  | Aborted tr =>
      tr = [] /\
      Z.land (Cb.lockedUsage cb) BufferUsage.CPU_WRITE_MASK <> 0
  end.
Proof.
  intros phys rgbSize. subst phys rgbSize.
  unfold unlockHostImpl, bind, this, call, pure, CRASH. cbn [app].
  destruct (Z.eqb_spec (Z.land (Cb.lockedUsage cb) BufferUsage.CPU_WRITE_MASK)
                       0) as [E | N]; cbn [negb]; [reflexivity |].
  destruct (gralloc_is_yuv_format host (Cb.format cb)).
  - destruct (Cb.format cb =? PixelFormat.YV12);
      [eexists; split; [reflexivity | discriminate] |].
    destruct (Cb.format cb =? PixelFormat.YCBCR_420_888);
      [eexists; split; [reflexivity | discriminate] |].
    split; [reflexivity | exact N].
  - eexists; split; reflexivity.
Qed.

(** X10.  Unlock of a locked handle with its memory pushes the buffer to
    the host exactly when the handle has a host handle and was locked for
    CPU writing: the push is one DMA update of the whole buffer, right
    after the buffer is bound at its physical address, and for a format
    that is not YUV it sends width * height * bytes-per-pixel bytes.
    Otherwise nothing is called.  Unlock returns no error here, and aborts
    only before anything was sent. *)
Theorem unlock_pushes_written_buffer host cb :
  Cb.lockedUsage cb <> 0 -> Cb.bufferSize cb <> 0 -> Cb.bufferPtr cb <> 0 ->
  let pushes :=
    negb (Cb.hostHandle cb =? 0)
    && negb (Z.land (Cb.lockedUsage cb) BufferUsage.CPU_WRITE_MASK =? 0) in
  match unlockImpl host (Some (Buffer cb)) with
  | Done _ _ tr =>
      if pushes then
        exists size,
          tr = [EvBindDmaDirectly (Cb.bufferPtr cb)
                  (getMmapedPhysAddr host (Cb.mmapedOffset cb));
                EvUpdateColorBufferDMA (Cb.hostHandle cb) (Cb.width cb)
                  (Cb.height cb) (Cb.glFormat cb) (Cb.glType cb) size] /\
          (gralloc_is_yuv_format host (Cb.format cb) = false ->
           size = u32 (Cb.width cb * Cb.height cb
                       * Z.shiftr (glUtilsPixelBitSize host (Cb.glFormat cb)
                                      (Cb.glType cb)) 3))
      else tr = []
  | Left _ _ _ => False
  | Aborted tr => tr = [] /\ pushes = true
  end.
Proof.
  intros Hl Hs Hp pushes. subst pushes.
  unfold unlockImpl, on_handle. cbn [from].
  rewrite (unlockBody_past_checks host cb Hl Hs Hp).
  destruct (negb (Cb.hostHandle cb =? 0)); cbn [andb]; [| reflexivity].
  pose proof (unlockHostImpl_calls host (Cb.bufferPtr cb) cb) as H.
  cbv zeta in H.
  destruct (unlockHostImpl host (Cb.bufferPtr cb) cb [])
    as [[] cb' hs | e cb' hs | hs]; try assumption.
  destruct H as [-> N]. apply Z.eqb_neq in N. rewrite N. auto.
Qed.

(** The sample buffer, locked for writing, is pushed: 64 * 64 * 4 bytes. *)
Lemma unlock_pushes_written_buffer_sample :
  exists raw' size,
    unlockImpl quiet_host (Some (Buffer (lockedAs 48 sample_region sample_cb)))
    = Done tt raw' [EvBindDmaDirectly 65536 4096;
                    EvUpdateColorBufferDMA 7 64 64 6408 5121 size] /\
    size = 16384.
Proof.
  pose proof (unlock_pushes_written_buffer quiet_host
                (lockedAs 48 sample_region sample_cb)
                ltac:(vm_compute; discriminate)
                ltac:(vm_compute; discriminate)
                ltac:(vm_compute; discriminate)) as H.
  cbv zeta in H.
  destruct (unlockImpl quiet_host
              (Some (Buffer (lockedAs 48 sample_region sample_cb))))
    as [[] raw' tr | e raw' tr | tr] eqn:E;
    [| contradiction | vm_compute in E; discriminate].
  destruct H as (size & -> & Hsz). exists raw', size.
  split; [reflexivity | exact (Hsz eq_refl)].
Defined.

(** X11.  After a lock that recorded no CPU-write bit, unlock on any host
    succeeds without a single call: a buffer that was only read is not
    sent back, and the unlock cannot abort. *)
Theorem read_only_lock_unlocks_silently host host' cb u r f out raw1 tr1 :
  lockImpl host (Some (Buffer cb)) u r f = Done out raw1 tr1 ->
  Z.land (checkedUsageOf u (Cb.usage cb)) BufferUsage.CPU_WRITE_MASK = 0 ->
  unlockImpl host' raw1
  = Done tt (Some (Buffer (Cb.setLockState 0 0 0 0 0 cb))) [].
Proof.
  intros H Hro.
  unfold lockImpl, on_handle in H. cbn [from] in H.
  pose proof (lockBody_outcome host u r f cb []) as HL.
  destruct (lockBody host u r f cb []) as [o cb1 t | e cb1 t | t];
    try discriminate.
  injection H as _ <- _.
  destruct HL as (_ & Hcu & Hs & Hp & -> & _).
  set (cu := checkedUsageOf u (Cb.usage cb)) in *.
  destruct (lockedAs_memory cu r cb) as (Ep & Es & Eh).
  unfold unlockImpl, on_handle. cbn [from].
  rewrite unlockBody_past_checks
    by (rewrite ?lockedAs_usage, ?Ep, ?Es; assumption).
  rewrite unlock_after_lockedAs.
  destruct (negb (Cb.hostHandle (lockedAs cu r cb) =? 0)); [| reflexivity].
  unfold unlockHostImpl, bind, this, pure.
  rewrite lockedAs_usage, Hro. reflexivity.
Qed.

(** The sample buffer locked for reading and unlocked. *)
Lemma read_only_lock_unlocks_silently_sample :
  unlockImpl quiet_host (Some (Buffer (lockedAs 3 sample_region sample_cb)))
  = Done tt (Some (Buffer (Cb.setLockState 0 0 0 0 0 sample_cb))) [].
Proof.
  exact (read_only_lock_unlocks_silently quiet_host quiet_host sample_cb 3
           sample_region None (mkLockOut 65536 4 256)
           (Some (Buffer (lockedAs 3 sample_region sample_cb)))
           [EvCacheFlush 7 true; EvReadColorBuffer 7 64 64 6408 5121]
           eq_refl eq_refl).
Defined.

(** ** Sequences of calls *)

(** X12.  Between a successful lock and the unlock, every further lock or
    lockYCbCr is refused: whatever its arguments and the host's state, it
    returns [BAD_VALUE], calls nothing and leaves the handle locked as the
    first lock left it. *)
Theorem second_lock_refused host host' cb u r f out raw1 tr1 u' r' f' :
  lockImpl host (Some (Buffer cb)) u r f = Done out raw1 tr1 ->
  lockImpl host' raw1 u' r' f' = Left BAD_VALUE raw1 [] /\
  lockYCbCrImpl host' raw1 u' r' f' = Left BAD_VALUE raw1 [].
Proof.
  intros H.
  unfold lockImpl, on_handle in H. cbn [from] in H.
  pose proof (lockBody_outcome host u r f cb []) as HL.
  destruct (lockBody host u r f cb []) as [o cb1 t | e cb1 t | t];
    try discriminate.
  injection H as _ <- _.
  destruct HL as (_ & Hcu & _ & _ & -> & _).
  unfold lockImpl, lockYCbCrImpl, on_handle, lockBody, lockYCbCrBody.
  cbn [from]. unfold bind, this.
  rewrite lockedAs_usage. apply Z.eqb_neq in Hcu. rewrite Hcu.
  split; reflexivity.
Qed.

(** A second lock of the sample buffer. *)
Lemma second_lock_refused_sample :
  lockImpl quiet_host (Some (Buffer (lockedAs 48 sample_region sample_cb))) 3
           sample_region None
  = Left BAD_VALUE (Some (Buffer (lockedAs 48 sample_region sample_cb))) [].
Proof.
  exact (proj1 (second_lock_refused quiet_host quiet_host sample_cb 48
                  sample_region None (mkLockOut 65536 4 256)
                  (Some (Buffer (lockedAs 48 sample_region sample_cb)))
                  [EvCacheFlush 7 false] 3 sample_region None eq_refl)).
Defined.

(** X13.  An unlock that succeeded cannot be repeated: the next unlock of
    the same handle returns [BAD_VALUE], calls nothing and changes
    nothing. *)
Theorem second_unlock_refused host host' raw raw1 tr1 :
  unlockImpl host raw = Done tt raw1 tr1 ->
  unlockImpl host' raw1 = Left BAD_VALUE raw1 [].
Proof.
  intros H. unfold unlockImpl, on_handle in H.
  destruct (from raw) as [cb |]; [| discriminate].
  pose proof (unlockBody_outcome host cb []) as HU.
  destruct (unlockBody host cb []) as [o cb1 t | e cb1 t | t];
    try discriminate.
  injection H as _ <- _.
  destruct HU as (_ & _ & _ & ->).
  reflexivity.
Qed.

(** The written sample buffer, unlocked twice. *)
Lemma second_unlock_refused_sample :
  unlockImpl quiet_host
             (Some (Buffer (Cb.setLockState 0 0 0 0 0 sample_cb)))
  = Left BAD_VALUE (Some (Buffer (Cb.setLockState 0 0 0 0 0 sample_cb))) [].
Proof.
  exact (second_unlock_refused quiet_host quiet_host
           (Some (Buffer (lockedAs 3 sample_region sample_cb)))
           (Some (Buffer (Cb.setLockState 0 0 0 0 0 sample_cb))) []
           eq_refl).
Defined.

(** X14.  Unlock makes the handle lockable again, whatever host serves
    the calls.  After a successful lock and a successful unlock the handle
    is the original one with a cleared lock state and passes the handle
    checks of lock; a further lock with the same usage, any rectangle and
    any fence, on any host, is not answered [BAD_BUFFER], is answered
    [BAD_VALUE] only if the wait on the new fence fails, takes the lock at
    once when there is no host handle and no fence, and when it succeeds
    records the new lock as on the original handle and hands out the same
    pointer as the first lock. *)
Theorem lock_again_after_unlock
        host host' host'' cb u r f out raw1 tr1 raw2 tr2 r2 f2 :
  lockImpl host (Some (Buffer cb)) u r f = Done out raw1 tr1 ->
  unlockImpl host' raw1 = Done tt raw2 tr2 ->
  let cb2 := Cb.setLockState 0 0 0 0 0 cb in
  raw2 = Some (Buffer cb2) /\
  lockable cb2 u /\
  returned (lockImpl host'' raw2 u r2 f2) <> Some BAD_BUFFER /\
  (returned (lockImpl host'' raw2 u r2 f2) = Some BAD_VALUE ->
   value_of (waitHidlFence host'' f2 cb2 []) <> Some 0) /\
  (Cb.hostHandle cb = 0 ->
   returned (lockImpl host'' raw2 u r2 None) = Some NONE) /\
  (forall out2 raw3 tr3,
      lockImpl host'' raw2 u r2 f2 = Done out2 raw3 tr3 ->
      raw3 = Some (Buffer (lockedAs (checkedUsageOf u (Cb.usage cb)) r2 cb)) /\
      ptr out2 = ptr out).
Proof.
  intros H1 H2 cb2.
  pose proof (lockBody_outcome host u r f cb []) as HL.
  unfold lockImpl, on_handle in H1. cbn [from] in H1.
  destruct (lockBody host u r f cb []) as [o cb1 t | e cb1 t | t];
    try discriminate.
  injection H1 as <- <- _.
  destruct HL as (Hl & Hcu & Hs & Hp & -> & Eptr).
  set (cu := checkedUsageOf u (Cb.usage cb)) in *.
  unfold unlockImpl, on_handle in H2. cbn [from] in H2.
  pose proof (unlockBody_outcome host' (lockedAs cu r cb) []) as HU.
  destruct (unlockBody host' (lockedAs cu r cb) [])
    as [o2 cb' t2 | e2 cb' t2 | t2]; try discriminate.
  injection H2 as _ <- _.
  destruct HU as (_ & _ & _ & ->). rewrite unlock_after_lockedAs.
  fold cb2.
  assert (Hok : lockable cb2 u) by (repeat split; assumption).
  assert (Ela : lockedAs cu r2 cb2 = lockedAs cu r2 cb)
    by (unfold lockedAs; destruct (negb _); reflexivity).
  split; [reflexivity |]. split; [exact Hok |].
  unfold lockImpl, on_handle. cbn [from].
  rewrite !(lockBody_past_checks host'' u r2 _ cb2 Hok).
  change (waitHidlFence host'' None cb2 []) with (@Done Cb.t Z 0 cb2 []).
  cbn [Z.eqb negb]. cbv zeta.
  change (checkedUsageOf u (Cb.usage cb2)) with cu.
  change (Cb.hostHandle cb2) with (Cb.hostHandle cb).
  change (Cb.bufferPtr cb2) with (Cb.bufferPtr cb).
  rewrite Ela.
  pose proof (lockHostImpl_error host'' cu r2 (Cb.bufferPtr cb) cb2 []) as He.
  destruct (waitHidlFence_returns host'' f2 cb2 []) as (z & ws & ->).
  cbn [value_of].
  split; [| split; [| split]].
  - destruct (negb (z =? 0)); [discriminate |].
    destruct (negb (Cb.hostHandle cb =? 0)); [| discriminate].
    destruct (lockHostImpl host'' cu r2 (Cb.bufferPtr cb) cb2 [])
      as [[] cb' hs | e cb' hs | hs]; cbn; try discriminate.
    subst e. discriminate.
  - destruct (Z.eqb_spec z 0) as [-> | N]; cbn [negb];
      [| intros _ E; injection E as E; contradiction].
    destruct (negb (Cb.hostHandle cb =? 0)); [| discriminate].
    destruct (lockHostImpl host'' cu r2 (Cb.bufferPtr cb) cb2 [])
      as [[] cb' hs | e cb' hs | hs]; cbn; try discriminate.
    subst e. discriminate.
  - intros Hh. rewrite Hh. reflexivity.
  - intros out2 raw3 tr3.
    destruct (negb (z =? 0)); [discriminate |].
    destruct (negb (Cb.hostHandle cb =? 0)).
    + destruct (lockHostImpl host'' cu r2 (Cb.bufferPtr cb) cb2 [])
        as [[] cb' hs | e cb' hs | hs]; try discriminate.
      intros E. injection E as <- <- _. cbn [ptr]. auto.
    + intros E. injection E as <- <- _. cbn [ptr]. auto.
Qed.

(** A buffer with a rectangle left over in its region fields is locked for
    writing on one host and unlocked; a lock on a host whose flush fails is
    then answered [NO_RESOURCES], not [BAD_BUFFER]. *)
Lemma lock_again_after_unlock_sample :
  returned (lockImpl failing_host
                     (Some (Buffer (Cb.setLockState 0 0 0 0 0 stale_cb))) 48
                     (Rect.mk 0 0 32 32) None)
  <> Some BAD_BUFFER.
Proof.
  pose proof (lock_again_after_unlock quiet_host quiet_host failing_host
                stale_cb 48 sample_region None (mkLockOut 65536 4 256)
                (Some (Buffer (lockedAs 48 sample_region stale_cb)))
                [EvCacheFlush 7 false]
                (Some (Buffer (Cb.setLockState 0 0 0 0 0 stale_cb)))
                [EvBindDmaDirectly 65536 4096;
                 EvUpdateColorBufferDMA 7 64 64 6408 5121 16384]
                (Rect.mk 0 0 32 32) None eq_refl eq_refl)
    as (_ & _ & H & _).
  exact H.
Defined.

(** X15.  When [gralloc_is_yuv_format] accepts no format but the two that
    the format switches of the host steps handle, lock, lockYCbCr and
    unlock never abort the process: every call returns an error code. *)
Theorem in_sync_calls_return host raw u r f :
  yuv_formats_in_sync host ->
  returned (lockImpl host raw u r f) <> None /\
  returned (lockYCbCrImpl host raw u r f) <> None /\
  returned (unlockImpl host raw) <> None.
Proof.
  intros Hsync.
  unfold lockImpl, lockYCbCrImpl, unlockImpl, on_handle.
  destruct (from raw) as [cb |]; [| repeat split; discriminate].
  assert (HLh : forall cu,
             match lockHostImpl host cu r (Cb.bufferPtr cb) cb [] with
             | Aborted _ => False
             | _ => True
             end).
  { intros cu.
    pose proof (lockHostImpl_abort host cu r (Cb.bufferPtr cb) cb) as Ha.
    destruct (lockHostImpl host cu r (Cb.bufferPtr cb) cb []); try exact I.
    destruct Ha as (Hy & N1 & N2). destruct (Hsync _ Hy); contradiction. }
  assert (HUh : match unlockHostImpl host (Cb.bufferPtr cb) cb [] with
                | Aborted _ => False
                | _ => True
                end).
  { pose proof (unlockHostImpl_abort host (Cb.bufferPtr cb) cb []) as Ha.
    destruct (unlockHostImpl host (Cb.bufferPtr cb) cb []); try exact I.
    destruct Ha as (Hy & N1 & N2). destruct (Hsync _ Hy); contradiction. }
  assert (HU : returned
                 match unlockBody host cb [] with
                 | Done a cb' tr => Done a (Some (Buffer cb')) tr
                 | Left e cb' tr => Left e (Some (Buffer cb')) tr
                 | Aborted tr => Aborted tr
                 end <> None).
  { unfold unlockBody, bind, this, RETURN_ERROR. cbv zeta.
    destruct (Cb.lockedUsage cb =? 0); [discriminate |].
    destruct (Cb.bufferSize cb =? 0); [discriminate |].
    destruct (Cb.bufferPtr cb =? 0); [discriminate |].
    destruct (negb (Cb.hostHandle cb =? 0)); [| discriminate].
    destruct (unlockHostImpl host (Cb.bufferPtr cb) cb []);
      (discriminate || contradiction). }
  destruct (lockable_dec cb u) as [Hok | Hno].
  2:{ destruct (lockBody_checks_fail host u r f cb Hno) as [[e ->] [e' ->]].
      repeat split; try discriminate. exact HU. }
  rewrite (lockBody_past_checks host u r f cb Hok).
  rewrite (lockYCbCrBody_past_checks host u r f cb Hok).
  specialize (HLh (checkedUsageOf u (Cb.usage cb))).
  destruct (waitHidlFence_returns host f cb []) as (z & ws & ->).
  destruct (negb (z =? 0)); [repeat split; try discriminate; exact HU |].
  cbv zeta.
  destruct (ycbcrPlaneLayout (Cb.format cb) (Cb.width cb) (Cb.height cb));
    (destruct (negb (Cb.hostHandle cb =? 0));
     [destruct (lockHostImpl host (checkedUsageOf u (Cb.usage cb)) r
                  (Cb.bufferPtr cb) cb []);
      try contradiction; repeat split; try discriminate; exact HU
     | repeat split; try discriminate; exact HU]).
Qed.

Lemma quiet_host_in_sync : yuv_formats_in_sync quiet_host.
Proof.
  intros f H. cbn in H. apply orb_true_iff in H.
  destruct H as [H | H]; apply Z.eqb_eq in H; auto.
Qed.

(** On the sample host, a lock of the YV12 buffer returns. *)
Lemma in_sync_calls_return_sample :
  returned (lockImpl quiet_host (Some (Buffer yv12_cb)) 51 sample_region None)
  <> None.
Proof.
  exact (proj1 (in_sync_calls_return quiet_host (Some (Buffer yv12_cb)) 51
                  sample_region None quiet_host_in_sync)).
Defined.

(** ** The planes *)

(** X16.  In every layout the format switch computes (for sizes that fit
    the types), the luma plane of [height] rows of [yStride] bytes ends
    exactly where the first chroma plane begins, a row of luma is at least
    as long as the width, and for YV12 both strides are multiples of 16. *)
Theorem chroma_follows_luma format w h l :
  0 < w < 2 ^ 32 -> 0 < h < 2 ^ 32 ->
  layout_representable format w h ->
  ycbcrPlaneLayout format w h = Some l ->
  Z.min (uOffset l) (vOffset l) = yStride l * h /\
  w <= yStride l /\
  (format = PixelFormat.YV12 ->
   yStride l mod 16 = 0 /\ cStride l mod 16 = 0).
Proof.
  intros Hw Hh Hrep Hl.
  destruct (Z.eq_dec format PixelFormat.YCRCB_420_SP) as [-> | N1].
  { rewrite layout_sp in Hl by assumption. injection Hl as <-. cbn.
    repeat split; try lia; discriminate. }
  destruct (Z.eq_dec format PixelFormat.YV12) as [-> | N2].
  { rewrite layout_yv12 in Hl by assumption.
    change (spec_layout PixelFormat.YV12 w h)
      with (Some (mkPlaneLayout (spec_align w 16)
                    (spec_align (spec_align w 16 / 2) 16) 1
                    (spec_align w 16 * h
                     + spec_align (spec_align w 16 / 2) 16 * h / 2)
                    (spec_align w 16 * h))) in Hl.
    injection Hl as <-. cbn [uOffset vOffset yStride cStride].
    pose proof (spec_align_16_bounds w ltac:(lia)) as Hys.
    assert (0 <= spec_align w 16 / 2) by (apply Z.div_pos; lia).
    pose proof (spec_align_16_bounds (spec_align w 16 / 2) ltac:(lia)) as Hcs.
    assert (0 <= spec_align (spec_align w 16 / 2) 16 * h / 2)
      by (apply Z.div_pos; nia).
    split; [lia |]. split; [lia |]. intros _.
    rewrite !spec_align_16. rewrite !(Z.mul_comm 16), !Z.mod_mul by lia.
    split; reflexivity. }
  destruct (Z.eq_dec format PixelFormat.YCBCR_420_888) as [-> | N3].
  { rewrite layout_420_888 in Hl by assumption.
    change (spec_layout PixelFormat.YCBCR_420_888 w h)
      with (Some (mkPlaneLayout w (w / 2) 1 (h * w) (h * w + w / 2 * h / 2)))
      in Hl.
    injection Hl as <-. cbn [uOffset vOffset yStride cStride].
    assert (0 <= w / 2) by (apply Z.div_pos; lia).
    assert (0 <= w / 2 * h / 2) by (apply Z.div_pos; nia).
    repeat split; try lia; discriminate. }
  destruct (Z.eq_dec format PixelFormat.YCBCR_P010) as [-> | N4].
  { rewrite layout_p010 in Hl by assumption.
    change (spec_layout PixelFormat.YCBCR_P010 w h)
      with (Some (mkPlaneLayout (2 * w) (2 * w) 4
                                (h * (2 * w)) (h * (2 * w) + 2))) in Hl.
    assert (El : l = mkPlaneLayout (2 * w) (2 * w) 4
                                   (h * (2 * w)) (h * (2 * w) + 2))
      by congruence.
    rewrite El. unfold uOffset, vOffset, yStride, cStride.
    split; [lia |]. split; [lia |]. intros E. discriminate E. }
  unfold ycbcrPlaneLayout in Hl.
  apply Z.eqb_neq in N1, N2, N3, N4.
  rewrite N1, N2, N3, N4 in Hl. discriminate.
Qed.

(** A YV12 buffer of 100 by 50: rows of 112 bytes, the V plane right after
    the 5600 bytes of luma. *)
Lemma chroma_follows_luma_sample :
  Z.min 7200 5600 = 112 * 50 /\ 100 <= 112.
Proof.
  destruct (chroma_follows_luma PixelFormat.YV12 100 50
              (mkPlaneLayout 112 64 1 7200 5600)
              ltac:(lia) ltac:(lia)
              ltac:(split; [discriminate | vm_compute; split; reflexivity])
              eq_refl) as (H1 & H2 & _).
  exact (conj H1 H2).
Defined.

(** ** What the callbacks receive *)

(** X17.  The callback of lock gets a null pointer and zero sizes with
    every error, and with [NONE] the mapped pointer of the handle, which is
    never null. *)
Theorem lock_reply host raw u r f e out :
  IMapper.lock host raw u r f = Some (e, out) ->
  (e <> NONE -> out = mkLockOut 0 0 0) /\
  (e = NONE ->
   ptr out <> 0 /\ exists cb, from raw = Some cb /\ ptr out = Cb.bufferPtr cb).
Proof.
  unfold IMapper.lock, lockImpl, on_handle.
  destruct (from raw) as [cb |].
  2:{ intros H. injection H as <- <-. split; [reflexivity | discriminate]. }
  pose proof (lockBody_outcome host u r f cb []) as HL.
  destruct (lockBody host u r f cb []) as [o cb' t | e' cb' t | t];
    intros H; try discriminate; injection H as <- <-.
  - split; [intros N; contradiction |]. intros _.
    destruct HL as (_ & _ & _ & Hp & _ & Eo). rewrite Eo. eauto.
  - destruct HL as [_ Hne]. split; [reflexivity | intros; contradiction].
Qed.

(** The reply to a lock of the sample buffer. *)
Lemma lock_reply_sample :
  ptr (mkLockOut 65536 4 256) <> 0.
Proof.
  exact (proj1 (proj2 (lock_reply quiet_host (Some (Buffer sample_cb)) 48
                         sample_region None NONE (mkLockOut 65536 4 256)
                         eq_refl) eq_refl)).
Defined.

(** X18.  The callback of lockYCbCr gets the all-zero layout with every
    error, and with [NONE] a luma pointer that is the mapped pointer of the
    handle, never null, with the chroma pointers and strides of the plane
    layout of the handle's format. *)
Theorem lockYCbCr_reply host raw u r f e out :
  IMapper.lockYCbCr host raw u r f = Some (e, out) ->
  (e <> NONE -> out = mkYCbCrLayout3 0 0 0 0 0 0) /\
  (e = NONE ->
   y out <> 0 /\
   exists cb l,
     from raw = Some cb /\
     ycbcrPlaneLayout (Cb.format cb) (Cb.width cb) (Cb.height cb) = Some l /\
     out = mkYCbCrLayout3 (Cb.bufferPtr cb)
             (u64 (Cb.bufferPtr cb + uOffset l))
             (u64 (Cb.bufferPtr cb + vOffset l))
             (u32 (yStride l)) (u32 (cStride l)) (u32 (cStep l))).
Proof.
  unfold IMapper.lockYCbCr, lockYCbCrImpl, on_handle.
  destruct (from raw) as [cb |].
  2:{ intros H. injection H as <- <-. split; [reflexivity | discriminate]. }
  pose proof (lockYCbCrBody_outcome host u r f cb []) as HL.
  destruct (lockYCbCrBody host u r f cb []) as [o cb' t | e' cb' t | t];
    intros H; try discriminate; injection H as <- <-.
  - split; [intros N; contradiction |]. intros _.
    destruct HL as (_ & _ & _ & Hp & _ & l & Hl & ->). cbn [y].
    split; [exact Hp |]. exists cb, l. auto.
  - destruct HL as [_ Hne]. split; [reflexivity | intros; contradiction].
Qed.

(** The reply to a lockYCbCr of the YV12 sample buffer. *)
Lemma lockYCbCr_reply_sample :
  exists cb l,
    ycbcrPlaneLayout (Cb.format cb) (Cb.width cb) (Cb.height cb) = Some l /\
    mkYCbCrLayout3 65536 70656 69632 64 32 1
    = mkYCbCrLayout3 (Cb.bufferPtr cb)
        (u64 (Cb.bufferPtr cb + uOffset l))
        (u64 (Cb.bufferPtr cb + vOffset l))
        (u32 (yStride l)) (u32 (cStride l)) (u32 (cStep l)).
Proof.
  destruct (proj2 (lockYCbCr_reply quiet_host (Some (Buffer yv12_cb)) 3
                     sample_region None NONE
                     (mkYCbCrLayout3 65536 70656 69632 64 32 1) eq_refl)
                  eq_refl) as (_ & cb & l & _ & Hl & Ho).
  exists cb, l. split; assumption.
Defined.

(** ** Import and free *)

(** X19.  The callback of importBuffer gets a handle exactly when the error
    is [NONE]; the handle is then a recognized buffer handle, and the only
    errors are [BAD_BUFFER] and [NO_RESOURCES]. *)
Theorem importBuffer_reply host hh e imported :
  IMapper.importBuffer host hh = Some (e, imported) ->
  (e = NONE <-> imported <> None) /\
  (e = NONE -> exists cb, from imported = Some cb) /\
  (e = NONE \/ e = BAD_BUFFER \/ e = NO_RESOURCES).
Proof.
  unfold IMapper.importBuffer, importBufferImpl.
  destruct hh as [[nh | cb] |]; cbn [from].
  - destruct (negb _); intros H; injection H as <- <-;
      (split; [split; [discriminate | intros N; contradiction] |]);
      (split; [discriminate | auto]).
  - destruct (negb (native_handle_clone_ok host (Buffer cb))).
    { intros H; injection H as <- <-.
      split; [split; [discriminate | intros N; contradiction] |].
      split; [discriminate | auto]. }
    destruct (Cb.mmapedSize cb >? 0).
    + destruct (Cb.bufferFdIndex cb <? 0); [discriminate |].
      destruct (memoryMap host _ _ _ _) as [res p].
      destruct (negb (res =? 0)); intros H; injection H as <- <-.
      * split; [split; [discriminate | intros N; contradiction] |].
        split; [discriminate | auto].
      * split; [split; [discriminate | reflexivity] |].
        split; [intros _; eexists; reflexivity | auto].
    + intros H; injection H as <- <-.
      split; [split; [discriminate | reflexivity] |].
      split; [intros _; eexists; reflexivity | auto].
  - intros H; injection H as <- <-.
    split; [split; [discriminate | intros N; contradiction] |].
    split; [discriminate | auto].
Qed.

(** The reply to the import of the sample buffer. *)
Lemma importBuffer_reply_sample :
  exists cb,
    from (Some (Buffer (Cb.setBufferPtr 1048576 sample_cb))) = Some cb.
Proof.
  exact (proj1 (proj2 (importBuffer_reply quiet_host
                         (Some (Buffer sample_cb)) NONE
                         (Some (Buffer (Cb.setBufferPtr 1048576 sample_cb)))
                         eq_refl)) eq_refl).
Defined.

(** X20.  Freeing an imported handle undoes the import: it succeeds,
    unmaps exactly the region that the import mapped (the pointer the
    mapping returned, the declared length), or nothing if the import mapped
    nothing, and then closes and deletes the clone. *)
Theorem free_undoes_import host nh imported tr :
  raw_wf nh ->
  importBufferImpl host nh = Done tt imported tr ->
  exists cb,
    from nh = Some cb /\
    (Cb.mmapedSize cb = 0 ->
     tr = [] /\
     freeBuffer imported
     = Done tt None [EvNativeHandleClose; EvNativeHandleDelete]) /\
    (Cb.mmapedSize cb <> 0 ->
     let fd := nth (Z.to_nat (Cb.bufferFdIndex cb)) (Cb.fds cb) 0 in
     let mapped := snd (memoryMap host (Cb.bufferPtr cb) (Cb.mmapedSize cb)
                                  fd (Cb.mmapedOffset cb)) in
     tr = [EvMemoryMap (Cb.bufferPtr cb) (Cb.mmapedSize cb) fd
                       (Cb.mmapedOffset cb)] /\
     freeBuffer imported
     = Done tt None [EvMemoryUnmap mapped (Cb.mmapedSize cb);
                     EvNativeHandleClose; EvNativeHandleDelete]).
Proof.
  intros Hwf. unfold importBufferImpl.
  destruct nh as [[f | cb] |]; try discriminate.
  { destruct (negb _); discriminate. }
  destruct (negb (native_handle_clone_ok host (Buffer cb))); [discriminate |].
  cbn [from]. cbn [raw_wf from] in Hwf.
  pose proof (Cb.wf_mmapedSize cb Hwf) as Hm. unfold in_u32 in Hm.
  destruct (Z.gtb_spec (Cb.mmapedSize cb) 0) as [Hpos | Hzero].
  - destruct (Cb.bufferFdIndex cb <? 0); [discriminate |].
    destruct (memoryMap host _ _ _ _) as [res p] eqn:Em.
    destruct (negb (res =? 0)); [discriminate |].
    intros H. injection H as <- <-.
    exists cb. split; [reflexivity |]. split; [intros; lia |].
    intros _. rewrite Em. cbn [snd]. split; [reflexivity |].
    unfold freeBuffer. cbn [from Cb.mmapedSize Cb.bufferPtr Cb.setBufferPtr].
    destruct (Z.gtb_spec (Cb.mmapedSize cb) 0); [reflexivity | lia].
  - intros H. injection H as <- <-.
    exists cb. split; [reflexivity |]. split; [| intros; lia].
    intros _. split; [reflexivity |].
    unfold freeBuffer. cbn [from].
    destruct (Z.gtb_spec (Cb.mmapedSize cb) 0); [lia | reflexivity].
Qed.

(** The sample buffer imported and freed. *)
Lemma free_undoes_import_sample :
  freeBuffer (Some (Buffer (Cb.setBufferPtr 1048576 sample_cb)))
  = Done tt None [EvMemoryUnmap 1048576 16384;
                  EvNativeHandleClose; EvNativeHandleDelete].
Proof.
  destruct (free_undoes_import quiet_host (Some (Buffer sample_cb))
              (Some (Buffer (Cb.setBufferPtr 1048576 sample_cb)))
              [EvMemoryMap 65536 16384 5 0] sample_cb_wf eq_refl)
    as (cb & Hcb & _ & H).
  injection Hcb as <-.
  exact (proj2 (H ltac:(discriminate))).
Defined.

(** X21.  The pointer that a lock hands out for an imported handle with a
    mapping is the pointer that the import's mapping returned. *)
Theorem lock_returns_imported_mapping
        host host' nh cb imported tr u r f out locked tr' :
  raw_wf nh -> from nh = Some cb -> Cb.mmapedSize cb <> 0 ->
  importBufferImpl host nh = Done tt imported tr ->
  lockImpl host' imported u r f = Done out locked tr' ->
  ptr out
  = snd (memoryMap host (Cb.bufferPtr cb) (Cb.mmapedSize cb)
                   (nth (Z.to_nat (Cb.bufferFdIndex cb)) (Cb.fds cb) 0)
                   (Cb.mmapedOffset cb)).
Proof.
  intros Hwf Hfrom Hsz Himp Hlock.
  destruct nh as [[f0 | cb0] |]; try discriminate.
  cbn [from] in Hfrom. injection Hfrom as ->.
  cbn [raw_wf from] in Hwf.
  pose proof (Cb.wf_mmapedSize cb Hwf) as Hm. unfold in_u32 in Hm.
  unfold importBufferImpl in Himp.
  destruct (negb (native_handle_clone_ok host (Buffer cb))); [discriminate |].
  cbn [from] in Himp.
  destruct (Z.gtb_spec (Cb.mmapedSize cb) 0) as [Hpos | Hzero]; [| lia].
  destruct (Cb.bufferFdIndex cb <? 0); [discriminate |].
  destruct (memoryMap host _ _ _ _) as [res p].
  destruct (negb (res =? 0)); [discriminate |].
  injection Himp as <- _. cbn [snd].
  unfold lockImpl, on_handle in Hlock. cbn [from] in Hlock.
  pose proof (lockBody_outcome host' u r f (Cb.setBufferPtr p cb) []) as HL.
  destruct (lockBody host' u r f (Cb.setBufferPtr p cb) [])
    as [o cb' t | e cb' t | t]; try discriminate.
  injection Hlock as <- _ _.
  destruct HL as (_ & _ & _ & _ & _ & ->). reflexivity.
Qed.

(** The sample buffer imported and locked: the pointer is the mapping. *)
Lemma lock_returns_imported_mapping_sample :
  ptr (mkLockOut 1048576 4 256) = 1048576.
Proof.
  exact (lock_returns_imported_mapping quiet_host quiet_host
           (Some (Buffer sample_cb)) sample_cb
           (Some (Buffer (Cb.setBufferPtr 1048576 sample_cb)))
           [EvMemoryMap 65536 16384 5 0] 48 sample_region None
           (mkLockOut 1048576 4 256)
           (Some (Buffer (lockedAs 48 sample_region
                            (Cb.setBufferPtr 1048576 sample_cb))))
           [EvCacheFlush 7 false]
           sample_cb_wf eq_refl ltac:(discriminate) eq_refl eq_refl).
Defined.

(** ** The encoded descriptor *)

Lemma land_UINT32_MAX v : Z.land v UINT32_MAX = v mod 2 ^ 32.
Proof.
  change UINT32_MAX with (Z.ones 32). apply Z.land_ones. lia.
Qed.

(** X22.  A descriptor is encoded in five 32-bit words.  Two descriptors
    get the same encoding exactly when they agree on width, height, layer
    count, format and the low 32 bits of the usage: the upper 32 usage bits
    are not part of the encoding. *)
Theorem descriptor_encoding d1 d2 :
  desc_wf d1 ->
  length (encodeBufferDescriptorInfo d1) = 5%nat /\
  Forall in_u32 (encodeBufferDescriptorInfo d1) /\
  (encodeBufferDescriptorInfo d1 = encodeBufferDescriptorInfo d2 <->
   Desc.width d1 = Desc.width d2 /\
   Desc.height d1 = Desc.height d2 /\
   Desc.layerCount d1 = Desc.layerCount d2 /\
   Desc.format d1 mod 2 ^ 32 = Desc.format d2 mod 2 ^ 32 /\
   Desc.usage d1 mod 2 ^ 32 = Desc.usage d2 mod 2 ^ 32).
Proof.
  intros (Hw1 & Hh1 & Hl1 & _).
  unfold encodeBufferDescriptorInfo. rewrite !land_UINT32_MAX.
  unfold u32, wrap. rewrite !Z.mod_mod by lia.
  split; [reflexivity |]. split.
  - repeat constructor; try assumption; try apply Hw1; try apply Hh1;
      try apply Hl1; apply Z.mod_pos_bound; lia.
  - split.
    + intros H. injection H as E1 E2 E3 E4 E5.
      repeat split; assumption.
    + intros (E1 & E2 & E3 & E4 & E5).
      rewrite E1, E2, E3, E4, E5. reflexivity.
Qed.

(** The sample descriptor and the same with a vendor bit above bit 32. *)
Lemma descriptor_encoding_sample :
  encodeBufferDescriptorInfo rgb888_cpu_desc
  = encodeBufferDescriptorInfo
      (Desc.mk 64 64 1 PixelFormat.RGB_888 (51 + 2 ^ 48)).
Proof.
  apply (proj2 (proj2 (proj2 (descriptor_encoding rgb888_cpu_desc
                                (Desc.mk 64 64 1 PixelFormat.RGB_888
                                         (51 + 2 ^ 48))
                                ltac:(repeat split; cbv; congruence))))).
  repeat split.
Defined.

(** ** The physical address of a buffer *)

(** X23.  The constructor fails only when the allocator did not open or
    its allocation failed.  Otherwise the constant it computes translates
    offsets to physical addresses: it maps the offset of the probe block to
    its physical address, and offsets that differ by some amount to
    addresses that differ by the same amount (in 64 bits). *)
Theorem phys_addr_translation probe host :
  in_u64 (physAddr probe) -> in_u64 (offset probe) ->
  (GoldfishMapper_init probe = None <->
   is_opened probe = false \/ hostMalloc probe <> 0) /\
  (GoldfishMapper_init probe = Some (m_physAddrToOffset host) ->
   getMmapedPhysAddr host (offset probe) = physAddr probe /\
   forall o d,
     getMmapedPhysAddr host (o + d)
     = u64 (getMmapedPhysAddr host o + d)).
Proof.
  intros Hp Ho. unfold GoldfishMapper_init, getMmapedPhysAddr, u64, wrap.
  unfold in_u64 in Hp, Ho.
  destruct (is_opened probe); cbn [negb].
  2:{ split; [tauto | discriminate]. }
  destruct (Z.eqb_spec (hostMalloc probe) 0) as [E | N]; cbn [negb].
  2:{ split; [tauto | discriminate]. }
  split; [split; [discriminate | intros [H | H]; congruence] |].
  intros H. injection H as H. rewrite <- H. split.
  - rewrite Zplus_mod_idemp_l.
    replace (physAddr probe - offset probe + offset probe)
      with (physAddr probe) by lia.
    apply Z.mod_small. lia.
  - intros o d. change (Z.pow_pos 2 64) with (2 ^ 64).
    rewrite !Zplus_mod_idemp_l, <- Z.add_assoc, Zplus_mod_idemp_l.
    reflexivity.
Qed.

(** A probe block at physical address 0x1000 with offset 0. *)
Lemma phys_addr_translation_sample :
  getMmapedPhysAddr quiet_host 0 = 4096.
Proof.
  exact (proj1 (proj2 (phys_addr_translation (mkProbe true 0 4096 0)
                         quiet_host
                         ltac:(cbv; split; congruence)
                         ltac:(cbv; split; congruence)) eq_refl)).
Defined.

(** ** The DMA binding of the encoder *)

(** X24.  Once a buffer is bound directly, with a non-null pointer and a
    non-zero physical address, [lockAndWriteDma] returns that physical
    address whatever context is bound besides: for the bound buffer itself
    it copies nothing, for any other data it copies the data into the
    bound buffer. *)
Theorem dma_direct_binding guest_paddr s dmaPtr dmaPhysAddr data size :
  dmaPtr <> 0 -> dmaPhysAddr <> 0 ->
  let s' := Dma.bindDmaDirectly dmaPtr dmaPhysAddr s in
  Dma.lockAndWriteDma guest_paddr dmaPtr size s' = (dmaPhysAddr, []) /\
  (data <> dmaPtr ->
   Dma.lockAndWriteDma guest_paddr data size s'
   = (dmaPhysAddr, [Dma.Memcpy dmaPtr data size])).
Proof.
  intros Hp Ha s'. subst s'.
  unfold Dma.lockAndWriteDma, Dma.bindDmaDirectly.
  cbn [Dma.m_dmaPtr Dma.m_dmaPhysAddr Dma.m_dmaCxt].
  apply Z.eqb_neq in Hp, Ha. rewrite Hp, Ha. cbn [negb andb].
  rewrite Z.eqb_refl. cbn [negb].
  split; [reflexivity |].
  intros Hd. apply Z.eqb_neq in Hd. rewrite Hd. reflexivity.
Qed.

(** The binding that unlock makes for the sample buffer. *)
Lemma dma_direct_binding_sample :
  Dma.lockAndWriteDma (fun _ => 0) 65536 16384
    (Dma.bindDmaDirectly 65536 (getMmapedPhysAddr quiet_host 0) Dma.init)
  = (4096, []).
Proof.
  exact (proj1 (dma_direct_binding (fun _ => 0) Dma.init 65536
                  (getMmapedPhysAddr quiet_host 0) 0 16384
                  ltac:(discriminate) ltac:(vm_compute; discriminate))).
Defined.

(** X25.  A direct binding with a null pointer or a physical address of
    zero counts for nothing: [lockAndWriteDma] then writes through the
    bound DMA context if there is one, and otherwise does nothing and
    returns 0. *)
Theorem dma_incomplete_binding guest_paddr s data size :
  Dma.m_dmaPtr s = 0 \/ Dma.m_dmaPhysAddr s = 0 ->
  (Dma.m_dmaCxt s <> 0 ->
   Dma.lockAndWriteDma guest_paddr data size s
   = (guest_paddr (Dma.m_dmaCxt s),
      [Dma.GoldfishDmaWrite (Dma.m_dmaCxt s) data size])) /\
  (Dma.m_dmaCxt s = 0 ->
   Dma.lockAndWriteDma guest_paddr data size s = (0, [])).
Proof.
  intros H. unfold Dma.lockAndWriteDma.
  assert (Hb : negb (Dma.m_dmaPtr s =? 0) && negb (Dma.m_dmaPhysAddr s =? 0)
               = false).
  { destruct H as [-> | ->]; cbn; [reflexivity | apply andb_false_r]. }
  rewrite Hb. split; intros Hc.
  - apply Z.eqb_neq in Hc. rewrite Hc. reflexivity.
  - rewrite Hc. reflexivity.
Qed.

(** A buffer bound at physical address 0, with no context. *)
Lemma dma_incomplete_binding_sample :
  Dma.lockAndWriteDma (fun _ => 0) 65536 16384
    (Dma.bindDmaDirectly 65536 0 Dma.init) = (0, []).
Proof.
  exact (proj2 (dma_incomplete_binding (fun _ => 0)
                  (Dma.bindDmaDirectly 65536 0 Dma.init) 65536 16384
                  (or_intror eq_refl)) eq_refl).
Defined.

(** ** The support check and the plane layouts *)

(** X26.  Every format that lockYCbCr can lay out passes the support
    check for a buffer the GPU does not touch: a descriptor of positive
    size with one layer, no reserved usage bit and no GPU usage bit, whose
    format has a plane layout, is supported. *)
Theorem planar_formats_supported d :
  Desc.width d > 0 -> Desc.height d > 0 -> Desc.layerCount d = 1 ->
  no_reserved_bit (Desc.usage d) -> no_gpu_bit (Desc.usage d) ->
  ycbcrPlaneLayout (Desc.format d) (Desc.width d) (Desc.height d) <> None ->
  isSupportedImpl d = true.
Proof.
  intros Hw Hh Hl Hres Hgpu Hlay.
  apply no_reserved_bit_iff in Hres. apply needGpuBuffer_iff in Hgpu.
  unfold isSupportedImpl.
  destruct (Z.eqb_spec (Desc.width d) 0); [lia |].
  destruct (Z.eqb_spec (Desc.height d) 0); [lia |].
  rewrite Hl, Hres, Hgpu. cbn [Z.eqb negb Pos.eqb]. cbv zeta.
  unfold ycbcrPlaneLayout in Hlay.
  destruct (Z.eqb_spec (Desc.format d) PixelFormat.YCRCB_420_SP) as [-> | _];
    [reflexivity |].
  destruct (Z.eqb_spec (Desc.format d) PixelFormat.YV12) as [-> | _];
    [reflexivity |].
  destruct (Z.eqb_spec (Desc.format d) PixelFormat.YCBCR_420_888) as [-> | _];
    [reflexivity |].
  destruct (Z.eqb_spec (Desc.format d) PixelFormat.YCBCR_P010) as [-> | _];
    [reflexivity |].
  contradiction.
Qed.

(** A CPU-only descriptor of a semi-planar buffer. *)
Lemma planar_formats_supported_sample :
  isSupportedImpl (Desc.mk 64 64 1 PixelFormat.YCRCB_420_SP 51) = true.
Proof.
  apply (planar_formats_supported (Desc.mk 64 64 1 PixelFormat.YCRCB_420_SP 51));
    try reflexivity; try discriminate.
  - apply no_reserved_bit_iff. reflexivity.
  - apply needGpuBuffer_iff. reflexivity.
Defined.

(** ** Reading back *)

Lemma waits_are_no_readback ws :
  forallb is_sync_wait ws = true -> filter is_readback ws = [].
Proof.
  induction ws as [| ev ws IH]; [reflexivity |].
  cbn [forallb filter]. intros H. apply andb_true_iff in H as [He Hws].
  destruct ev; try discriminate. cbn. apply IH, Hws.
Qed.

Lemma lockHostImpl_reads_once host cu r bits cb tr :
  Z.land cu BufferUsage.CPU_READ_MASK <> 0 ->
  lockHostImpl host cu r bits cb [] = Done tt cb tr ->
  length (filter is_readback tr) = 1%nat.
Proof.
  intros Hr. apply Z.eqb_neq in Hr.
  unfold lockHostImpl, bind, this, call, pure, CRASH, RETURN_ERROR.
  rewrite Hr. cbn [negb app].
  split_ifs; intros H; try discriminate; injection H as <-; reflexivity.
Qed.

(** X27.  A lock with CPU read access on a buffer with a host handle that
    returns [NONE] has read the buffer back from the host exactly once. *)
Theorem read_lock_reads_once host cb u r f :
  lockable cb u ->
  Cb.hostHandle cb <> 0 ->
  Z.land (checkedUsageOf u (Cb.usage cb)) BufferUsage.CPU_READ_MASK <> 0 ->
  returned (lockImpl host (Some (Buffer cb)) u r f) = Some NONE ->
  length (filter is_readback (calls (lockImpl host (Some (Buffer cb)) u r f)))
  = 1%nat.
Proof.
  intros Hok Hh Hr.
  unfold lockImpl, on_handle. cbn [from].
  rewrite (lockBody_past_checks host u r f cb Hok).
  pose proof (waitHidlFence_only_waits host f cb) as Hw.
  destruct (waitHidlFence_returns host f cb []) as (z & ws & E).
  rewrite E in *. cbn [calls] in Hw.
  destruct (negb (z =? 0)); [discriminate |].
  apply Z.eqb_neq in Hh. rewrite Hh. cbn [negb]. cbv zeta.
  pose proof (lockHostImpl_reads_once host (checkedUsageOf u (Cb.usage cb)) r
                (Cb.bufferPtr cb) cb) as Hone.
  pose proof (frames_lockHostImpl host (checkedUsageOf u (Cb.usage cb)) r
                (Cb.bufferPtr cb) cb []) as Hf.
  pose proof (lockHostImpl_error host (checkedUsageOf u (Cb.usage cb)) r
                (Cb.bufferPtr cb) cb []) as He.
  destruct (lockHostImpl host (checkedUsageOf u (Cb.usage cb)) r
              (Cb.bufferPtr cb) cb [])
    as [[] cb' hs | e cb' hs | hs]; cbn [returned calls];
    [| subst e; discriminate | discriminate].
  intros _. subst cb'.
  rewrite filter_app, (waits_are_no_readback ws Hw). cbn [app].
  apply (Hone hs Hr eq_refl).
Qed.

(** The sample buffer locked for reading: one read of the colour buffer. *)
Lemma read_lock_reads_once_sample :
  length (filter is_readback
            (calls (lockImpl quiet_host (Some (Buffer sample_cb)) 3
                             sample_region None))) = 1%nat.
Proof.
  apply (read_lock_reads_once quiet_host sample_cb 3 sample_region None).
  - repeat split; vm_compute; discriminate.
  - discriminate.
  - vm_compute. discriminate.
  - reflexivity.
Defined.
